(** * Request construction for the search cluster: batch serialization

    A shallow embedding of the Go package [elasticsearch]:

    - [requests.go]  : [SearchRequest], [MultiSearchRequest] (streaming
      [Serialize] into an [io.Writer]);
    - an earlier revision of the same file, where [MultiSearchRequest.Body]
      buffers the lines and joins them;
    - the index file: [actionMetadata], [IndexRequest], [CreateRequest],
      [UpdateRequest], [DeleteRequest], [BulkIndexRequest].

    Go strings and byte slices are [string]s (sequences of 8-bit [ascii]
    bytes).  A Go [error] is its message.  A [url.Values] is an optional
    finite map, [None] being Go's nil map.  The [io.Writer] interface is a
    type class; [bytes.Buffer] is its instance on [string].  The functions
    of Go's standard library that the package calls ([strings.Join],
    [url.Values.Get], [url.Values.Encode], [json.Marshal],
    [json.Encoder.Encode]) are modelled in the first modules. *)

From Stdlib Require Import String Ascii ZArith NArith Lia DecimalString.
From stdpp Require Import base option list gmap strings fin_maps sorting.

Local Open Scope string_scope.
Local Open Scope nat_scope.
#[local] Disable Notation "x ++ y" : string_scope.

(** ** Bytes and lines *)

Definition error := string.

(** The newline byte, ['\n']. *)
Definition LF : ascii := ascii_of_nat 10.
Definition NL : string := String LF "".

Definition byte_val (c : ascii) : N := N_of_ascii c.

Definition is_LF (c : ascii) : bool := (byte_val c =? 10)%N.

(** Number of newline bytes of a byte string. *)
Fixpoint count_nl (s : string) : nat :=
  match s with
  | "" => 0
  | String c s' => (if is_LF c then 1 else 0) + count_nl s'
  end.

(** [bytes.HasSuffix(s, "\n")]. *)
Fixpoint ends_with_nl (s : string) : bool :=
  match s with
  | "" => false
  | String c "" => is_LF c
  | String _ s' => ends_with_nl s'
  end.

(** One complete line: a newline at the end and nowhere else. *)
Definition single_line (s : string) : Prop :=
  ∃ body, s = body +:+ NL ∧ count_nl body = 0.

(** ** [strings] *)

Module strings.

(** [strings.Join(elems, sep)]. *)
Fixpoint Join (elems : list string) (sep : string) : string :=
  match elems with
  | [] => ""
  | [e] => e
  | e :: rest => e +:+ sep +:+ Join rest sep
  end.

(** [strings.Split(s, sep)] for a one-byte separator. *)
Fixpoint Split (s : string) (sep : ascii) : list string :=
  match s with
  | "" => [""]
  | String c s' =>
      if Ascii.eqb c sep then "" :: Split s' sep
      else match Split s' sep with
           | [] => [String c ""]
           | f :: fs => String c f :: fs
           end
  end.

Fixpoint Contains (s : string) (c : ascii) : bool :=
  match s with
  | "" => false
  | String c' s' => Ascii.eqb c' c || Contains s' c
  end.

End strings.

(** ** [io.Writer] *)

Class Writer (W : Type) := Write : W → string → W * option error.

(** [bytes.Buffer]: every write appends and succeeds. *)
#[global] Instance Buffer : Writer string := λ buf p, (buf +:+ p, None).

(** A writer with a fixed amount of room left, such as a pipe or a file on a
    full disk: a write that does not fit fails and writes nothing. *)
Record LimitedWriter := { written : string; room : nat }.

#[global] Instance Limited : Writer LimitedWriter := λ w p,
  if decide (String.length p ≤ room w)%nat
  then ({| written := written w +:+ p; room := room w - String.length p |}, None)
  else (w, Some "short write").

(** ** Byte-wise order on strings, used wherever Go sorts map keys *)

Definition str_le (a b : string) : Prop := String.leb a b = true.

#[global] Instance str_le_dec a b : Decision (str_le a b) :=
  decide (String.leb a b = true).

Definition key_le {A} (x y : string * A) : Prop := str_le x.1 y.1.

#[global] Instance key_le_dec {A} (x y : string * A) : Decision (key_le x y) :=
  str_le_dec x.1 y.1.

(** The entries of a Go map in the order of their sorted keys. *)
Definition sorted_entries {A} (m : gmap string A) : list (string * A) :=
  merge_sort key_le (map_to_list m).

(** ** [net/url] *)

Module url.

(** [type Values map[string][]string]; [None] is the nil map. *)
Definition Values : Type := option (gmap string (list string)).

(** What reading a [Values] sees: a nil map reads as an empty one. *)
Definition entries (v : Values) : gmap string (list string) := default ∅ v.

(** [v.Add(key, value)]: appends the value to the values of the key. *)
Definition Add (m : gmap string (list string)) (key value : string)
    : gmap string (list string) :=
  <[key := (default [] (m !! key) ++ [value])%list]> m.

(** [v.Get(key)]: the first value of the key, or the empty string. *)
Definition Get (v : Values) (key : string) : string :=
  match entries v !! key with
  | Some (x :: _) => x
  | _ => ""
  end.

Definition upperhex (n : N) : ascii :=
  default "0"%char (String.get (N.to_nat n) "0123456789ABCDEF").

Definition unreserved (c : ascii) : bool :=
  let b := byte_val c in
  ((97 <=? b) && (b <=? 122) || (65 <=? b) && (b <=? 90)
   || (48 <=? b) && (b <=? 57)
   || (b =? 45) || (b =? 95) || (b =? 46) || (b =? 126))%N.

(** [url.QueryEscape(s)]. *)
Fixpoint QueryEscape (s : string) : string :=
  match s with
  | "" => ""
  | String c s' =>
      (if unreserved c then String c ""
       else if (byte_val c =? 32)%N then "+"
       else String "%" (String (upperhex (byte_val c / 16))
              (String (upperhex (byte_val c mod 16)) "")))
      +:+ QueryEscape s'
  end.

(** [v.Encode()]: [key=value] pairs joined by [&], keys sorted. *)
Definition Encode (v : Values) : string :=
  strings.Join
    (mbind (λ kvs : string * list string,
              (λ x, QueryEscape kvs.1 +:+ "=" +:+ QueryEscape x) <$> kvs.2)
           (sorted_entries (entries v)))
    "&".

End url.

(** ** [path]

    [path.Clean] is the loop of the Go library over the bytes of the path;
    the buffer it writes is the string [out], whose length is the write
    index.  The inner loop that copies one element is the same loop in
    copying mode. *)

Module path.

Definition is_slash (c : ascii) : bool := Ascii.eqb c "/".
Definition is_dot (c : ascii) : bool := Ascii.eqb c ".".

(** The test [r == n || path[r] == '/'] on the path from [r] on. *)
Definition at_elem_end (rest : string) : bool :=
  match rest with
  | "" => true
  | String c _ => is_slash c
  end.

(** The loop that backs up over one element: [w] goes down while it is
    above [dotdot] and the byte at [w] is no slash. *)
Fixpoint back_to (buf : string) (dotdot w : nat) : nat :=
  match w with
  | 0 => 0
  | S w' =>
      if (dotdot <? w) && negb (bool_decide (String.get w buf = Some "/"%char))
      then back_to buf dotdot w'
      else w
  end.

(** The separator written before an element that is not the first. *)
Definition with_sep (rooted : bool) (out : string) : string :=
  if rooted && negb (String.length out =? 1)
     || negb rooted && negb (String.length out =? 0)
  then out +:+ "/" else out.

(** The loop of [Clean]: [rest] is the path from [r] on, [out] the bytes
    written so far, [in_elem] tells that an element is being copied. *)
Fixpoint Clean_loop (rooted in_elem : bool) (rest out : string) (dotdot : nat)
    : string :=
  match rest with
  | "" => out
  | String c rest' =>
      if in_elem then
        if is_slash c then Clean_loop rooted false rest' out dotdot
        else Clean_loop rooted true rest' (out +:+ String c "") dotdot
      else if is_slash c then
        (* empty path element *)
        Clean_loop rooted false rest' out dotdot
      else if is_dot c && at_elem_end rest' then
        (* . element *)
        Clean_loop rooted false rest' out dotdot
      else
        match rest' with
        | String c' rest'' =>
            if is_dot c && is_dot c' && at_elem_end rest'' then
              (* .. element: remove to last slash *)
              if dotdot <? String.length out then
                Clean_loop rooted false rest''
                  (String.substring 0
                     (back_to out dotdot (String.length out - 1)) out)
                  dotdot
              else if negb rooted then
                let out1 := if 0 <? String.length out then out +:+ "/" else out in
                Clean_loop rooted false rest'' (out1 +:+ "..")
                  (String.length (out1 +:+ ".."))
              else Clean_loop rooted false rest'' out dotdot
            else
              (* real path element *)
              Clean_loop rooted true rest' (with_sep rooted out +:+ String c "") dotdot
        | "" =>
            Clean_loop rooted true rest' (with_sep rooted out +:+ String c "") dotdot
        end
  end.

(** [path.Clean(path)]. *)
Definition Clean (path : string) : string :=
  match path with
  | "" => "."
  | String c rest =>
      let out :=
        if is_slash c then Clean_loop true false rest "/" 1
        else Clean_loop false false path "" 0 in
      if String.length out =? 0 then "." else out
  end.

(** The buffer [path.Join] builds before cleaning it: the elements from the
    first non-empty one on, with a slash between them. *)
Definition Join_buf (elem : list string) : string :=
  foldl (λ buf e,
           if (0 <? String.length buf) || negb (String.eqb e "")
           then (if 0 <? String.length buf then buf +:+ "/" else buf) +:+ e
           else buf)
        "" elem.

(** [path.Join(elem...)]. *)
Definition Join (elem : list string) : string :=
  if foldl (λ size e, size + String.length e) 0 elem =? 0 then ""
  else Clean (Join_buf elem).

End path.

(** ** [encoding/json]

    The encoder on the values this package hands to it: strings are quoted
    and escaped, maps are written with their keys sorted, the output is
    compact.  [Encode] writes the encoding and a newline in one [Write], and
    writes nothing when the value cannot be encoded. *)

Module json.

Definition DQ : ascii := ascii_of_nat 34.
Definition BS : ascii := ascii_of_nat 92.

Definition hex (n : N) : ascii :=
  default "0"%char (String.get (N.to_nat n) "0123456789abcdef").

(** The escape of one byte below [utf8.RuneSelf]. *)
Definition escape_ascii (c : ascii) : string :=
  let b := byte_val c in
  if ((b =? 34) || (b =? 92))%N then String BS (String c "")
  else if (b =? 8)%N then String BS "b"
  else if (b =? 12)%N then String BS "f"
  else if (b =? 10)%N then String BS "n"
  else if (b =? 13)%N then String BS "r"
  else if (b =? 9)%N then String BS "t"
  else if ((b <? 32) || (b =? 60) || (b =? 62) || (b =? 38))%N
       then String BS "u00" +:+ String (hex (b / 16)) (String (hex (b mod 16)) "")
  else String c "".

Definition in_range (lo hi : N) (c : ascii) : bool :=
  ((lo <=? byte_val c) && (byte_val c <=? hi))%N.

(** Range accepted for the second byte of a multi-byte rune, given its
    first byte, and the number of bytes that follow the first; [None] when
    the first byte starts no rune ([utf8.first] and [utf8.acceptRanges]). *)
Definition rune_head (c : ascii) : option (nat * N * N) :=
  let b := byte_val c in
  if in_range 194 223 c then Some (1%nat, 128%N, 191%N)
  else if (b =? 224)%N then Some (2%nat, 160%N, 191%N)
  else if in_range 225 236 c then Some (2%nat, 128%N, 191%N)
  else if (b =? 237)%N then Some (2%nat, 128%N, 159%N)
  else if in_range 238 239 c then Some (2%nat, 128%N, 191%N)
  else if (b =? 240)%N then Some (3%nat, 144%N, 191%N)
  else if in_range 241 243 c then Some (3%nat, 128%N, 191%N)
  else if (b =? 244)%N then Some (3%nat, 128%N, 143%N)
  else None.

Definition ufffd : string := String BS "ufffd".

(** The bytes [c c1 c2] of a three-byte rune: U+2028 and U+2029 are
    escaped, every other rune is copied. *)
Definition rune3 (c c1 c2 : ascii) : string :=
  if ((byte_val c =? 226) && (byte_val c1 =? 128)
      && ((byte_val c2 =? 168) || (byte_val c2 =? 169)))%N
  then String BS "u202" +:+ String (hex (byte_val c2 - 160)) ""
  else String c (String c1 (String c2 "")).

(** The body of a quoted string: the loop of [encodeState.string]. *)
Fixpoint escape (s : string) : string :=
  match s with
  | "" => ""
  | String c rest =>
      if (byte_val c <? 128)%N then escape_ascii c +:+ escape rest
      else
        match rune_head c, rest with
        | Some (1, lo, hi), String c1 r1 =>
            if in_range lo hi c1
            then String c (String c1 (escape r1))
            else ufffd +:+ escape rest
        | Some (2, lo, hi), String c1 (String c2 r2) =>
            if in_range lo hi c1 && in_range 128 191 c2
            then rune3 c c1 c2 +:+ escape r2
            else ufffd +:+ escape rest
        | Some (3, lo, hi), String c1 (String c2 (String c3 r3)) =>
            if in_range lo hi c1 && in_range 128 191 c2 && in_range 128 191 c3
            then String c (String c1 (String c2 (String c3 (escape r3))))
            else ufffd +:+ escape rest
        | _, _ => ufffd +:+ escape rest
        end
  end.

Definition quote (s : string) : string :=
  String DQ (escape s) +:+ String DQ "".

(** A JSON array of already encoded elements. *)
Definition array (elems : list string) : string :=
  "[" +:+ strings.Join elems "," +:+ "]".

(** A JSON object of already encoded values, in the order given. *)
Definition object (fields : list (string * string)) : string :=
  "{" +:+ strings.Join ((λ kv, quote kv.1 +:+ ":" +:+ kv.2) <$> fields) ","
      +:+ "}".

(** Encoding of a [map[string]string]. *)
Definition string_map (m : gmap string string) : string :=
  object (prod_map id quote <$> sorted_entries m).

(** Encoding of a [map[string]interface{}] whose values are
    [map[string]string]s. *)
Definition nested_map (m : gmap string (gmap string string)) : string :=
  object (prod_map id string_map <$> sorted_entries m).

(** The outcome of encoding a value. *)
Inductive result (A : Type) : Type :=
| Ok (a : A)
| Err (e : error).
Arguments Ok {A} a.
Arguments Err {A} e.

Definition result_map {A B} (f : A → B) (r : result A) : result B :=
  match r with Ok a => Ok (f a) | Err e => Err e end.

(** The encodings of a sequence of values, or the first error. *)
Fixpoint all {A} (rs : list (result A)) : result (list A) :=
  match rs with
  | [] => Ok []
  | Err e :: _ => Err e
  | Ok a :: rs' => result_map (cons a) (all rs')
  end.

Fixpoint all_fields {A} (rs : list (string * result A)) : result (list (string * A)) :=
  match rs with
  | [] => Ok []
  | (_, Err e) :: _ => Err e
  | (k, Ok a) :: rs' => result_map (cons (k, a)) (all_fields rs')
  end.

(** The dynamic values carried by a [Source interface{}] or a [SubQuery]:
    nil, booleans, integers, strings, slices, maps with string keys (one
    entry per key), and values of a type the encoder rejects (a func or a
    channel). *)
#[local] Unset Elimination Schemes.
Inductive Value : Type :=
| Null
| Bool (b : bool)
| Int (n : Z)
| Str (s : string)
| Slice (elems : list Value)
| Map (fields : list (string * Value))
| Func.
#[local] Set Elimination Schemes.

(** Induction on the values, through slices and maps. *)
Fixpoint Value_induction (P : Value → Prop)
    (HNull : P Null) (HBool : ∀ b, P (Bool b)) (HInt : ∀ n, P (Int n))
    (HStr : ∀ s, P (Str s))
    (HSlice : ∀ elems, Forall P elems → P (Slice elems))
    (HMap : ∀ fields, Forall (λ kv, P kv.2) fields → P (Map fields))
    (HFunc : P Func) (v : Value) {struct v} : P v :=
  let rec := Value_induction P HNull HBool HInt HStr HSlice HMap HFunc in
  match v with
  | Null => HNull
  | Bool b => HBool b
  | Int n => HInt n
  | Str s => HStr s
  | Slice elems =>
      HSlice elems
        ((fix go l : Forall P l :=
            match l with
            | [] => List.Forall_nil P
            | x :: l' => List.Forall_cons P x l' (rec x) (go l')
            end) elems)
  | Map fields =>
      HMap fields
        ((fix go l : Forall (λ kv, P kv.2) l :=
            match l with
            | [] => List.Forall_nil _
            | kv :: l' => List.Forall_cons (λ kv, P kv.2) kv l' (rec kv.2) (go l')
            end) fields)
  | Func => HFunc
  end.

Definition itoa (n : Z) : string := NilEmpty.string_of_int (Z.to_int n).

(** [json.Marshal(v)]. *)
Fixpoint Marshal (v : Value) : result string :=
  match v with
  | Null => Ok "null"
  | Bool b => Ok (if b then "true" else "false")
  | Int n => Ok (itoa n)
  | Str s => Ok (quote s)
  | Slice elems => result_map array (all (Marshal <$> elems))
  | Map fields =>
      result_map object
        (all_fields (merge_sort key_le ((λ kv, (kv.1, Marshal kv.2)) <$> fields)))
  | Func => Err "json: unsupported type: func()"
  end.

(** What the encoder does by reflection on the type of its argument. *)
Class Marshaler (A : Type) := marshal : A → result string.

#[global] Instance Value_Marshaler : Marshaler Value := Marshal.
#[global] Instance string_map_Marshaler : Marshaler (gmap string string) :=
  λ m, Ok (string_map m).
#[global] Instance nested_map_Marshaler :
  Marshaler (gmap string (gmap string string)) := λ m, Ok (nested_map m).

(** [json.NewEncoder(w).Encode(v)]. *)
Definition Encode `{Writer W} `{Marshaler A} (w : W) (v : A) : W * option error :=
  match marshal v with
  | Err e => (w, Some e)
  | Ok b => Write w (b +:+ NL)
  end.

End json.

Import json.

(** ** A call that may panic *)

Inductive outcome (A : Type) : Type :=
| Returns (a : A)
| Panics (msg : string).
Arguments Returns {A} a.
Arguments Panics {A} msg.

(** ** The log of the standard logger: one entry per [log.Printf] *)

Definition Log : Type := list string.

(** ** [SearchRequest] *)

(** Modelled from the spec: [SubQuery], the type of [SearchRequest.Query], is
    declared in a file of the package that is not among the sources.  The
    spec calls it an opaque, serializable query payload, any value that can
    be rendered to structured text; so it is a value handed to the encoder,
    which may reject it. *)
Definition SubQuery : Type := Value.

Module SearchRequest.

Record t : Type := {
  Indices : list string;
  Types : list string;
  Query : SubQuery;
  Params : url.Values   (* can be nil unless explicitly set *)
}.

Definition Method (r : t) : string := "GET".

Definition Path (r : t) : outcome string :=
  if (length (Indices r) =? 0)%nat && (length (Types r) =? 0)%nat then
    Returns "/_search"
  else if (0 <? length (Indices r))%nat && (length (Types r) =? 0)%nat then
    Returns ("/" +:+ strings.Join (Indices r) "," +:+ "/_search")
  else if (length (Indices r) =? 0)%nat && (0 <? length (Types r))%nat then
    Returns ("/_all/" +:+ strings.Join (Types r) "," +:+ "/_search")
  else if (0 <? length (Indices r))%nat && (0 <? length (Types r))%nat then
    Returns ("/" +:+ strings.Join (Indices r) "," +:+ "/"
                 +:+ strings.Join (Types r) "," +:+ "/_search")
  else Panics "unreachable".

Definition Values (r : t) : url.Values :=
  match Params r with
  | None => Some ∅
  | Some m => Some m
  end.

Definition Serialize `{Writer W} (r : t) (w : W) : W * option error :=
  Encode w (Query r).

(** The local struct of [SerializeBatchHeader]; both fields carry
    [omitempty]. *)
Record headerLine : Type := {
  hIndices : list string;   (* json: index *)
  hTypes : list string      (* json: type *)
}.

#[global] Instance headerLine_Marshaler : Marshaler headerLine := λ h,
  Ok (object
        ((if (length (hIndices h) =? 0)%nat then []
          else [("index", array (quote <$> hIndices h))])
         ++ (if (length (hTypes h) =? 0)%nat then []
             else [("type", array (quote <$> hTypes h))]))).

Definition SerializeBatchHeader `{Writer W} (r : t) (w : W) : W * option error :=
  Encode w {| hIndices := Indices r; hTypes := Types r |}.

(** In the earlier revision a request renders itself as a byte slice. *)
Definition Body (r : t) : result string := Marshal (Query r).

End SearchRequest.

(** ** [actionMetadata] *)

(** The map literal and the loop of [actionMetadata]; [keys] is the order
    in which [range v] happens to yield the keys of [v]. *)
Definition actionMetadata_range (keys : list string) (index t id : string)
    (v : url.Values) : gmap string string :=
  foldl (λ metadata k, <[k := url.Get v k]> metadata)
        {[ "_index" := index; "_type" := t; "_id" := id ]}
        keys.

(** Helper function for building the action_metadata header value for bulk
    index requests. *)
Definition actionMetadata (action index t id : string) (v : url.Values)
    : gmap string (gmap string string) :=
  {[ action := actionMetadata_range (map_to_list (url.entries v)).*1 index t id v ]}.

(** ** The write requests *)

Module IndexRequest.

Record t : Type := {
  Index : string;
  Type_ : string;
  Id : string;
  Params : url.Values;
  Source : Value
}.

Definition Method (r : t) : string := "PUT".

Definition Path (r : t) : string :=
  path.Join [Index r; Type_ r; Id r].

Definition Values (r : t) : url.Values := Params r.

Definition Serialize `{Writer W} (r : t) (w : W) : W * option error :=
  Encode w (Source r).

Definition SerializeBatchHeader `{Writer W} (r : t) (w : W) : W * option error :=
  Encode w (actionMetadata "index" (Index r) (Type_ r) (Id r) (Params r)).

End IndexRequest.

Module CreateRequest.

Record t : Type := {
  Index : string;
  Type_ : string;
  Id : string;
  Params : url.Values;
  Source : Value
}.

Definition Method (r : t) : string := "PUT".

Definition Path (r : t) : string :=
  path.Join [Index r; Type_ r; Id r; "_create"].

Definition Values (r : t) : url.Values := Params r.

Definition Serialize `{Writer W} (r : t) (w : W) : W * option error :=
  Encode w (Source r).

Definition SerializeBatchHeader `{Writer W} (r : t) (w : W) : W * option error :=
  Encode w (actionMetadata "create" (Index r) (Type_ r) (Id r) (Params r)).

End CreateRequest.

Module UpdateRequest.

Record t : Type := {
  Index : string;
  Type_ : string;
  Id : string;
  Params : url.Values;
  Source : Value
}.

Definition Method (r : t) : string := "POST".

Definition Path (r : t) : string :=
  path.Join [Index r; Type_ r; Id r; "_update"].

Definition Values (r : t) : url.Values := Params r.

Definition Serialize `{Writer W} (r : t) (w : W) : W * option error :=
  Encode w (Source r).

Definition SerializeBatchHeader `{Writer W} (r : t) (w : W) : W * option error :=
  Encode w (actionMetadata "update" (Index r) (Type_ r) (Id r) (Params r)).

End UpdateRequest.

Module DeleteRequest.

Record t : Type := {
  Index : string;
  Type_ : string;
  Id : string;
  Params : url.Values
}.

Definition Method (r : t) : string := "DELETE".

Definition Path (r : t) : string :=
  path.Join [Index r; Type_ r; Id r].

Definition Values (r : t) : url.Values := Params r.

Definition Serialize `{Writer W} (r : t) (w : W) : W * option error :=
  (w, None).

Definition SerializeBatchHeader `{Writer W} (r : t) (w : W) : W * option error :=
  Encode w (actionMetadata "delete" (Index r) (Type_ r) (Id r) (Params r)).

End DeleteRequest.

(** ** [BatchFireable]

    The interface, as the sum of the types of the package that implement
    it; a method call dispatches on the variant. *)

Module BatchFireable.

Inductive t : Type :=
| Search (r : SearchRequest.t)
| Index (r : IndexRequest.t)
| Create (r : CreateRequest.t)
| Update (r : UpdateRequest.t)
| Delete (r : DeleteRequest.t).

Definition Method (f : t) : string :=
  match f with
  | Search r => SearchRequest.Method r
  | Index r => IndexRequest.Method r
  | Create r => CreateRequest.Method r
  | Update r => UpdateRequest.Method r
  | Delete r => DeleteRequest.Method r
  end.

Definition Values (f : t) : url.Values :=
  match f with
  | Search r => SearchRequest.Values r
  | Index r => IndexRequest.Values r
  | Create r => CreateRequest.Values r
  | Update r => UpdateRequest.Values r
  | Delete r => DeleteRequest.Values r
  end.

Definition Serialize `{Writer W} (f : t) (w : W) : W * option error :=
  match f with
  | Search r => SearchRequest.Serialize r w
  | Index r => IndexRequest.Serialize r w
  | Create r => CreateRequest.Serialize r w
  | Update r => UpdateRequest.Serialize r w
  | Delete r => DeleteRequest.Serialize r w
  end.

Definition SerializeBatchHeader `{Writer W} (f : t) (w : W) : W * option error :=
  match f with
  | Search r => SearchRequest.SerializeBatchHeader r w
  | Index r => IndexRequest.SerializeBatchHeader r w
  | Create r => CreateRequest.SerializeBatchHeader r w
  | Update r => UpdateRequest.SerializeBatchHeader r w
  | Delete r => DeleteRequest.SerializeBatchHeader r w
  end.

End BatchFireable.

(** ** [MultiSearchRequest] *)

Module MultiSearchRequest.

Definition t : Type := list BatchFireable.t.

Definition Method (r : t) : string := "GET".

Definition Path (r : t) : string := "/_msearch".

Definition Values (r : t) : url.Values :=
  Some (foldl (λ v searchRequest,
           foldl (λ v (kvs : string * list string),
                    foldl (λ v value, url.Add v kvs.1 value) v kvs.2)
                 v (map_to_list (url.entries (BatchFireable.Values searchRequest))))
         ∅ r).

Definition header_diagnostic (err : error) : string :=
  "ElasticSearch: MultiSearchRequest Body header: " +:+ err.

Definition body_diagnostic (err : error) : string :=
  "ElasticSearch: MultiSearchRequest Body body: " +:+ err.

(** The loop of [Serialize]; the log is threaded next to the writer. *)
Fixpoint Serialize `{Writer W} (r : t) (w : W) (lg : Log) : W * Log * option error :=
  match r with
  | [] => (w, lg, None)
  | searchRequest :: rest =>
      match BatchFireable.SerializeBatchHeader searchRequest w with
      | (w1, Some err) => Serialize rest w1 (lg ++ [header_diagnostic err])%list
      | (w1, None) =>
          match BatchFireable.Serialize searchRequest w1 with
          | (w2, Some err) => Serialize rest w2 (lg ++ [body_diagnostic err])%list
          | (w2, None) => Serialize rest w2 lg
          end
      end
  end.

(** The earlier revision: a slice of [SearchRequest]s, rendered by
    [Body] into a byte slice. *)
Definition t0 : Type := list SearchRequest.t.

(** [Values] of the earlier revision: the same loops, over searches. *)
Definition Values0 (r : t0) : url.Values :=
  Some (foldl (λ v searchRequest,
           foldl (λ v (kvs : string * list string),
                    foldl (λ v value, url.Add v kvs.1 value) v kvs.2)
                 v (map_to_list (url.entries (SearchRequest.Values searchRequest))))
         ∅ r).

(** The loop of [Body]: the lines collected so far, and the log. *)
Fixpoint Body_lines (r : t0) (lines : list string) (lg : Log) : list string * Log :=
  match r with
  | [] => (lines, lg)
  | searchRequest :: rest =>
      match marshal {| SearchRequest.hIndices := SearchRequest.Indices searchRequest;
                       SearchRequest.hTypes := SearchRequest.Types searchRequest |} with
      | Err err => Body_lines rest lines (lg ++ [header_diagnostic err])%list
      | Ok headerBuf =>
          match SearchRequest.Body searchRequest with
          | Err err => Body_lines rest lines (lg ++ [body_diagnostic err])%list
          | Ok bodyBuf => Body_lines rest ((lines ++ [headerBuf]) ++ [bodyBuf])%list lg
          end
      end
  end.

Definition Body (r : t0) (lg : Log) : string * Log * option error :=
  let '(lines, lg') := Body_lines r [] lg in
  (strings.Join lines NL +:+ NL, lg', None).

End MultiSearchRequest.

(** ** [BulkIndexRequest] *)

Module BulkIndexRequest.

Definition t : Type := list BatchFireable.t.

Definition Method (br : t) : string := "POST".

Definition Path (br : t) : string := "/_bulk".

Definition Values (br : t) : url.Values := Some ∅.

Fixpoint Serialize `{Writer W} (br : t) (w : W) : W * option error :=
  match br with
  | [] => (w, None)
  | request :: rest =>
      match BatchFireable.SerializeBatchHeader request w with
      | (w1, Some err) => (w1, Some err)
      | (w1, None) =>
          match BatchFireable.Serialize request w1 with
          | (w2, Some err) => (w2, Some err)
          | (w2, None) => Serialize rest w2
          end
      end
  end.

End BulkIndexRequest.

(** ** Vocabulary of the properties *)

Definition isDelete (f : BatchFireable.t) : bool :=
  match f with
  | BatchFireable.Delete _ => true
  | _ => false
  end.

(** The bytes of a sequence of chunks, one after the other. *)
Definition flatten (chunks : list string) : string :=
  foldr String.append "" chunks.

(** What one member adds to a bulk body: its header line, then its body
    line, or nothing at all for a delete. *)
Definition member_chunk (f : BatchFireable.t) (c : string) : Prop :=
  ∃ h b, c = h +:+ b ∧ single_line h
         ∧ if isDelete f then b = "" else single_line b.

(** What one member adds to a bulk body, tied to its two methods: the bytes
    its [SerializeBatchHeader] writes, one complete line, and right after
    them the bytes its [Serialize] writes, which are one complete line, or
    no byte at all when the member is a delete. *)
Definition member_output (f : BatchFireable.t) (c : string) : Prop :=
  ∃ h b, c = h +:+ b
         ∧ BatchFireable.SerializeBatchHeader f "" = (h, None)
         ∧ single_line h
         ∧ BatchFireable.Serialize f "" = (b, None)
         ∧ if isDelete f then b = "" else single_line b.

(** What the spec asks of every member: a header line and a body line. *)
Definition header_and_body_line (c : string) : Prop :=
  ∃ h b, c = h +:+ b ∧ single_line h ∧ single_line b.

(** The line the spec gives a write operation as its batch header: the
    one-key object from the verb to the metadata object, where an extra
    option shows with its first value alone, and the three base fields show
    where no option has their name. *)
Definition batch_header_line (verb index t id : string) (v : url.Values)
    (line : string) : Prop :=
  ∃ metadata : gmap string string,
    line = object [(verb, string_map metadata)] +:+ NL
    ∧ single_line line
    ∧ (∀ k vs, url.entries v !! k = Some vs →
               metadata !! k = Some (default "" (head vs)))
    ∧ (∀ k, url.entries v !! k = None →
            metadata !! k
            = ({[ "_index" := index; "_type" := t; "_id" := id ]}
                 : gmap string string) !! k).

(** A name that holds no comma, so that it stays one field of a
    comma-joined list. *)
Definition comma_free (e : string) : Prop := strings.Contains e "," = false.

(** The order in which a [range] may yield the keys of a map: each key
    once, in any order. *)
Definition range_order (v : url.Values) (keys : list string) : Prop :=
  keys ≡ₚ (map_to_list (url.entries v)).*1.

(** What [Serialize] hands to the encoder: the query or the source, and
    nothing for a delete. *)
Definition body_of (f : BatchFireable.t) : option (result string) :=
  match f with
  | BatchFireable.Search r => Some (Marshal (SearchRequest.Query r))
  | BatchFireable.Index r => Some (Marshal (IndexRequest.Source r))
  | BatchFireable.Create r => Some (Marshal (CreateRequest.Source r))
  | BatchFireable.Update r => Some (Marshal (UpdateRequest.Source r))
  | BatchFireable.Delete _ => None
  end.

(** The member has a body and the encoder rejects it. *)
Definition body_fails (f : BatchFireable.t) : bool :=
  match body_of f with
  | Some (Err _) => true
  | _ => false
  end.


(** The query of the search can be encoded. *)
Definition query_encodes (s : SearchRequest.t) : bool :=
  match SearchRequest.Body s with
  | Ok _ => true
  | Err _ => false
  end.

(** The values the members of a request give a key, in member order. *)
Definition values_of_key {A} (values : A → url.Values) (r : list A) (k : string)
    : list string :=
  mjoin ((λ f, default [] (url.entries (values f) !! k)) <$> r).

(** What a key holds after more values were added to it: untouched when
    there are none, else what it held followed by them. *)
Definition extend (o : option (list string)) (values : list string)
    : option (list string) :=
  match values with
  | [] => o
  | _ => Some (default [] o ++ values)%list
  end.

(** A name that can stand as one element of a path: not empty, without a
    slash, and neither of the two dot elements. *)
Definition path_elem (e : string) : Prop :=
  e ≠ "" ∧ strings.Contains e "/" = false ∧ e ≠ "." ∧ e ≠ "..".

(** A field of a write request as its path sees it: left empty, or a name. *)
Definition path_field (e : string) : Prop := e = "" ∨ path_elem e.

(** The elements after the first of a slash-separated path. *)
Definition tail_str (l : list string) : string :=
  foldr (λ e acc, "/" +:+ e +:+ acc) "" l.

(** ** The requests of the package's tests, and some that fail *)

Module fixtures.

Definition john : Value := Map [("name", Str "John")].

Definition index : IndexRequest.t := {|
  IndexRequest.Index := "foo"; IndexRequest.Type_ := "bar";
  IndexRequest.Id := "123";
  IndexRequest.Params := Some {[ "refresh" := ["true"] ]};
  IndexRequest.Source := john |}.

Definition delete : DeleteRequest.t := {|
  DeleteRequest.Index := "foo"; DeleteRequest.Type_ := "bar";
  DeleteRequest.Id := "321"; DeleteRequest.Params := None |}.

(** An index request whose source cannot be encoded. *)
Definition broken : IndexRequest.t := {|
  IndexRequest.Index := "foo"; IndexRequest.Type_ := "bar";
  IndexRequest.Id := "7"; IndexRequest.Params := None;
  IndexRequest.Source := Func |}.

(** An index request with no explicit options. *)
Definition plain : IndexRequest.t := {|
  IndexRequest.Index := "foo"; IndexRequest.Type_ := "bar";
  IndexRequest.Id := "123"; IndexRequest.Params := None;
  IndexRequest.Source := john |}.

(** Options that name the reserved keys, one of them twice. *)
Definition shadowing : url.Values :=
  Some {[ "_index" := ["other"; "third"]; "refresh" := ["true"] ]}.

Definition search_ok : SearchRequest.t := {|
  SearchRequest.Indices := ["a"; "b"]; SearchRequest.Types := [];
  SearchRequest.Query := john; SearchRequest.Params := None |}.

(** A search whose query cannot be encoded. *)
Definition search_bad : SearchRequest.t := {|
  SearchRequest.Indices := []; SearchRequest.Types := ["t"];
  SearchRequest.Query := Func; SearchRequest.Params := None |}.

(** A search over indices given unsorted and with a repeat. *)
Definition search_both : SearchRequest.t := {|
  SearchRequest.Indices := ["b"; "a"; "b"]; SearchRequest.Types := ["t"; "s"];
  SearchRequest.Query := john; SearchRequest.Params := None |}.

(** A create request whose id was left empty. *)
Definition no_id : CreateRequest.t := {|
  CreateRequest.Index := "foo"; CreateRequest.Type_ := "bar";
  CreateRequest.Id := ""; CreateRequest.Params := None;
  CreateRequest.Source := john |}.

(** The create request of the tests. *)
Definition create : CreateRequest.t := {|
  CreateRequest.Index := "foo"; CreateRequest.Type_ := "bar";
  CreateRequest.Id := "123";
  CreateRequest.Params := Some {[ "refresh" := ["true"] ]};
  CreateRequest.Source := john |}.

(** A delete request whose id is the parent element. *)
Definition dotdot_id : DeleteRequest.t := {|
  DeleteRequest.Index := "foo"; DeleteRequest.Type_ := "bar";
  DeleteRequest.Id := ".."; DeleteRequest.Params := None |}.

End fixtures.

(** * Properties *)

(** ** Byte strings *)

Lemma app_cons_s (x : ascii) (a b : string) : String x a +:+ b = String x (a +:+ b).
Proof. reflexivity. Qed.

Lemma app_nil_l_s (a : string) : "" +:+ a = a.
Proof. reflexivity. Qed.

Lemma app_assoc_s (a b c : string) : (a +:+ b) +:+ c = a +:+ b +:+ c.
Proof.
  induction a as [|x a IH]; [done |].
  by rewrite !app_cons_s, IH.
Qed.

Lemma app_nil_r_s (a : string) : a +:+ "" = a.
Proof.
  induction a as [|x a IH]; [done |].
  by rewrite app_cons_s, IH.
Qed.

Lemma count_nl_app (a b : string) : count_nl (a +:+ b) = count_nl a + count_nl b.
Proof.
  induction a as [|x a IH]; [done |].
  rewrite app_cons_s. simpl. rewrite IH. lia.
Qed.

Lemma count_nl_NL : count_nl NL = 1.
Proof. reflexivity. Qed.

Lemma ends_with_nl_app (a b : string) :
  b ≠ "" → ends_with_nl (a +:+ b) = ends_with_nl b.
Proof.
  intros Hb. induction a as [|x a IH]; [done |].
  rewrite app_cons_s. simpl. destruct (a +:+ b) eqn:E; [| done].
  destruct a; [done | discriminate].
Qed.

Lemma ends_with_nl_snoc (a : string) : ends_with_nl (a +:+ NL) = true.
Proof. rewrite ends_with_nl_app; done. Qed.

Lemma single_line_count (s : string) : single_line s → count_nl s = 1.
Proof. intros (b & -> & Hb). rewrite count_nl_app, Hb. reflexivity. Qed.

Lemma single_line_ends (s : string) : single_line s → ends_with_nl s = true.
Proof. intros (b & -> & _). apply ends_with_nl_snoc. Qed.

Lemma single_line_intro (b : string) : count_nl b = 0 → single_line (b +:+ NL).
Proof. intros Hb. by exists b. Qed.

Lemma single_line_nonempty (s : string) : single_line s → s ≠ "".
Proof. intros (b & -> & _). destruct b; discriminate. Qed.

(** ** The encoder never writes a raw newline *)

Lemma is_LF_high (c : ascii) : (128 ≤ byte_val c)%N → is_LF c = false.
Proof. unfold is_LF. intros H. apply N.eqb_neq. lia. Qed.

Lemma in_range_high (lo hi : N) (c : ascii) :
  (128 ≤ lo)%N → in_range lo hi c = true → is_LF c = false.
Proof.
  unfold in_range. intros Hlo [H _]%andb_prop.
  apply is_LF_high. apply N.leb_le in H. lia.
Qed.

Lemma hex_not_LF (n : N) : is_LF (hex n) = false.
Proof.
  unfold hex. generalize (N.to_nat n) as k. intros k.
  do 16 (destruct k as [|k]; [reflexivity |]). reflexivity.
Qed.

Lemma escape_ascii_nl (c : ascii) : count_nl (escape_ascii c) = 0.
Proof. destruct c as [[] [] [] [] [] [] [] []]; reflexivity. Qed.

Lemma rune_head_lo (c : ascii) (k : nat) (lo hi : N) :
  rune_head c = Some (k, lo, hi) → (128 ≤ lo)%N.
Proof.
  unfold rune_head. intros H.
  repeat match type of H with
         | (if ?b then _ else _) = _ => destruct b
         end; simplify_eq; lia.
Qed.

Lemma rune3_nl (c c1 c2 : ascii) :
  is_LF c = false → is_LF c1 = false → is_LF c2 = false →
  count_nl (rune3 c c1 c2) = 0.
Proof.
  intros H H1 H2. unfold rune3.
  destruct (_ && _)%bool.
  - rewrite count_nl_app. simpl. by rewrite hex_not_LF.
  - simpl. by rewrite H, H1, H2.
Qed.

Lemma escape_cons (c : ascii) (rest : string) :
  escape (String c rest) =
    if (byte_val c <? 128)%N then escape_ascii c +:+ escape rest
    else
      match rune_head c, rest with
      | Some (1, lo, hi), String c1 r1 =>
          if in_range lo hi c1
          then String c (String c1 (escape r1))
          else ufffd +:+ escape rest
      | Some (2, lo, hi), String c1 (String c2 r2) =>
          if in_range lo hi c1 && in_range 128 191 c2
          then rune3 c c1 c2 +:+ escape r2
          else ufffd +:+ escape rest
      | Some (3, lo, hi), String c1 (String c2 (String c3 r3)) =>
          if in_range lo hi c1 && in_range 128 191 c2 && in_range 128 191 c3
          then String c (String c1 (String c2 (String c3 (escape r3))))
          else ufffd +:+ escape rest
      | _, _ => ufffd +:+ escape rest
      end.
Proof. reflexivity. Qed.

Lemma escape_nl_bounded (n : nat) :
  ∀ s, String.length s ≤ n → count_nl (escape s) = 0.
Proof.
  induction n as [|n IH]; intros [|c rest] Hlen; simpl in Hlen; try done; [lia |].
  assert (Hrest : count_nl (escape rest) = 0) by (apply IH; lia).
  assert (Hbad : count_nl (ufffd +:+ escape rest) = 0)
    by (rewrite count_nl_app, Hrest; reflexivity).
  rewrite escape_cons.
  destruct (byte_val c <? 128)%N eqn:Hc.
  { by rewrite count_nl_app, escape_ascii_nl, Hrest. }
  apply N.ltb_ge in Hc. pose proof (is_LF_high c Hc) as HcLF.
  destruct (rune_head c) as [[[k lo] hi]|] eqn:Hhead; [| done].
  apply rune_head_lo in Hhead.
  destruct k as [|[|[|[|k]]]]; try done.
  - destruct rest as [|c1 r1]; [done |].
    destruct (in_range lo hi c1) eqn:H1; [| done].
    cbn [count_nl]. rewrite HcLF, (in_range_high lo hi c1) by done.
    simpl. apply IH. simpl in Hlen. lia.
  - destruct rest as [|c1 [|c2 r2]]; try done.
    destruct (in_range lo hi c1) eqn:H1; [| done].
    destruct (in_range 128 191 c2) eqn:H2; [| done].
    simpl andb. cbv iota.
    rewrite count_nl_app, rune3_nl.
    + simpl. apply IH. simpl in Hlen. lia.
    + done.
    + by apply (in_range_high lo hi).
    + apply (in_range_high 128 191); [lia | done].
  - destruct rest as [|c1 [|c2 [|c3 r3]]]; try done.
    destruct (in_range lo hi c1) eqn:H1; [| done].
    destruct (in_range 128 191 c2) eqn:H2; [| done].
    destruct (in_range 128 191 c3) eqn:H3; [| done].
    simpl andb. cbv iota. cbn [count_nl].
    rewrite HcLF, (in_range_high lo hi c1), (in_range_high 128 191 c2),
      (in_range_high 128 191 c3) by (done || lia).
    simpl. apply IH. simpl in Hlen. lia.
Qed.

Lemma escape_nl (s : string) : count_nl (escape s) = 0.
Proof. by apply (escape_nl_bounded (String.length s)). Qed.

Lemma quote_nl (s : string) : count_nl (quote s) = 0.
Proof.
  unfold quote. rewrite app_cons_s. cbn [count_nl].
  rewrite count_nl_app, escape_nl. reflexivity.
Qed.

Lemma Join_nl (elems : list string) (sep : string) :
  Forall (λ e, count_nl e = 0) elems → count_nl sep = 0 →
  count_nl (strings.Join elems sep) = 0.
Proof.
  intros Helems Hsep.
  induction Helems as [|e [|e' rest] He _ IH]; [done | done |].
  change (strings.Join (e :: e' :: rest) sep)
    with (e +:+ sep +:+ strings.Join (e' :: rest) sep).
  rewrite !count_nl_app, He, Hsep, IH. reflexivity.
Qed.

Lemma array_nl (elems : list string) :
  Forall (λ e, count_nl e = 0) elems → count_nl (array elems) = 0.
Proof.
  intros H. unfold array.
  rewrite !count_nl_app, Join_nl by done. reflexivity.
Qed.

Lemma object_nl (fields : list (string * string)) :
  Forall (λ kv, count_nl kv.2 = 0) fields → count_nl (object fields) = 0.
Proof.
  intros H. unfold object.
  rewrite !count_nl_app, Join_nl; [reflexivity | | reflexivity].
  apply Forall_fmap. eapply Forall_impl; [exact H |].
  intros [k x] Hx. unfold compose. cbn [fst snd] in *.
  rewrite !count_nl_app, quote_nl, Hx. reflexivity.
Qed.

Lemma string_map_nl (m : gmap string string) : count_nl (string_map m) = 0.
Proof.
  unfold string_map. apply object_nl, Forall_fmap, Forall_forall.
  intros [k x] _. apply quote_nl.
Qed.

Lemma nested_map_nl (m : gmap string (gmap string string)) :
  count_nl (nested_map m) = 0.
Proof.
  unfold nested_map. apply object_nl, Forall_fmap, Forall_forall.
  intros [k x] _. apply string_map_nl.
Qed.

Lemma headerLine_nl (h : SearchRequest.headerLine) :
  ∃ b, marshal h = Ok b ∧ count_nl b = 0.
Proof.
  eexists. split; [reflexivity |].
  apply object_nl, Forall_app. split.
  - destruct (_ =? _); constructor; [| done].
    apply array_nl, Forall_fmap, Forall_forall. intros x _. apply quote_nl.
  - destruct (_ =? _); constructor; [| done].
    apply array_nl, Forall_fmap, Forall_forall. intros x _. apply quote_nl.
Qed.

Lemma string_of_uint_nl (d : Decimal.uint) :
  count_nl (NilEmpty.string_of_uint d) = 0.
Proof. induction d; simpl; done. Qed.

Lemma itoa_nl (n : Z) : count_nl (itoa n) = 0.
Proof.
  unfold itoa. destruct (Z.to_int n); simpl; apply string_of_uint_nl.
Qed.

Lemma all_Forall {A} (P : A → Prop) (rs : list (result A)) (xs : list A) :
  Forall (λ r, ∀ x, r = Ok x → P x) rs → all rs = Ok xs → Forall P xs.
Proof.
  intros H. revert xs.
  induction H as [|r rs Hr _ IH]; intros xs Hall; simpl in Hall.
  - by simplify_eq.
  - destruct r as [a|e]; [| done].
    destruct (all rs) as [ys|e]; simpl in Hall; [| done].
    simplify_eq. constructor; eauto.
Qed.

Lemma all_fields_Forall {A} (P : A → Prop) (rs : list (string * result A))
    (xs : list (string * A)) :
  Forall (λ kr, ∀ x, kr.2 = Ok x → P x) rs → all_fields rs = Ok xs →
  Forall (λ kv, P kv.2) xs.
Proof.
  intros H. revert xs.
  induction H as [|[k r] rs Hr _ IH]; intros xs Hall; simpl in Hall.
  - by simplify_eq.
  - destruct r as [a|e]; [| done].
    destruct (all_fields rs) as [ys|e]; simpl in Hall; [| done].
    simplify_eq. constructor; eauto.
Qed.

Lemma Marshal_nl (v : Value) : ∀ b, Marshal v = Ok b → count_nl b = 0.
Proof.
  induction v as [| [] | n | s | elems IH | fields IH |] using Value_induction;
    intros b Hb; simpl in Hb; try (by simplify_eq).
  - simplify_eq. apply itoa_nl.
  - simplify_eq. apply quote_nl.
  - destruct (all _) as [xs|e] eqn:Hall; simpl in Hb; [| done].
    simplify_eq. apply array_nl.
    eapply all_Forall; [| exact Hall].
    by apply Forall_fmap.
  - destruct (all_fields _) as [xs|e] eqn:Hall; simpl in Hb; [| done].
    simplify_eq. apply object_nl.
    eapply (all_fields_Forall (λ x, count_nl x = 0)); [| exact Hall].
    rewrite merge_sort_Permutation.
    by apply Forall_fmap.
Qed.

(** Every [Marshaler] of the package yields compact output. *)
Lemma marshal_Value_nl (v : Value) (b : string) :
  marshal v = Ok b → count_nl b = 0.
Proof. apply Marshal_nl. Qed.

(** ** Bulk requests fail fast *)

Lemma bulk_app_ok {W} `{Writer W} (pre post : BulkIndexRequest.t) (w w1 : W) :
  BulkIndexRequest.Serialize pre w = (w1, None) →
  BulkIndexRequest.Serialize (pre ++ post) w = BulkIndexRequest.Serialize post w1.
Proof.
  revert w. induction pre as [|request pre IH]; intros w Hpre; simpl in *.
  - by simplify_eq.
  - destruct (BatchFireable.SerializeBatchHeader request w) as [wh [e|]]; [done |].
    destruct (BatchFireable.Serialize request wh) as [wb [e|]]; [done |].
    by apply IH.
Qed.

(** C2.  [BulkIndexRequest.Serialize] writes the members in sequence order,
    each as its batch header followed by its body.  Once the members before
    [request] are written, the outcome is decided at [request]: if its
    header fails, or its header is written and its body fails, the call
    returns that error with the writer as that failing step left it, and no
    member after it is touched; otherwise serialization goes on with the
    members that follow. *)
Theorem bulk_serialize_fail_fast {W} `{Writer W}
    (pre post : BulkIndexRequest.t) (request : BatchFireable.t) (w w1 : W) :
  BulkIndexRequest.Serialize pre w = (w1, None) →
  BulkIndexRequest.Serialize (pre ++ request :: post) w =
    match BatchFireable.SerializeBatchHeader request w1 with
    | (w2, Some err) => (w2, Some err)
    | (w2, None) =>
        match BatchFireable.Serialize request w2 with
        | (w3, Some err) => (w3, Some err)
        | (w3, None) => BulkIndexRequest.Serialize post w3
        end
    end.
Proof.
  intros Hpre. rewrite (bulk_app_ok pre _ w w1 Hpre). simpl.
  destruct (BatchFireable.SerializeBatchHeader request w1) as [w2 [e|]]; [done |].
  by destruct (BatchFireable.Serialize request w2) as [w3 [e|]].
Qed.

(** ** Multi-search requests skip and continue *)

Lemma msearch_app {W} `{Writer W} (pre post : MultiSearchRequest.t) (w : W) (lg : Log) :
  MultiSearchRequest.Serialize (pre ++ post) w lg =
    MultiSearchRequest.Serialize post
      (MultiSearchRequest.Serialize pre w lg).1.1
      (MultiSearchRequest.Serialize pre w lg).1.2.
Proof.
  revert w lg. induction pre as [|r pre IH]; intros w lg; simpl; [done |].
  destruct (BatchFireable.SerializeBatchHeader r w) as [wh [e|]]; [apply IH |].
  destruct (BatchFireable.Serialize r wh) as [wb [e|]]; apply IH.
Qed.

Lemma msearch_no_error {W} `{Writer W} (r : MultiSearchRequest.t) (w : W) (lg : Log) :
  (MultiSearchRequest.Serialize r w lg).2 = None.
Proof.
  revert w lg. induction r as [|f r IH]; intros w lg; simpl; [done |].
  destruct (BatchFireable.SerializeBatchHeader f w) as [wh [e|]]; [apply IH |].
  destruct (BatchFireable.Serialize f wh) as [wb [e|]]; apply IH.
Qed.

Lemma msearch_log_extends {W} `{Writer W} (r : MultiSearchRequest.t) :
  ∀ (w : W) (lg : Log),
    ∃ diags, (MultiSearchRequest.Serialize r w lg).1.2 = (lg ++ diags)%list.
Proof.
  induction r as [|f r IH]; intros w lg; simpl.
  { exists []. by rewrite app_nil_r. }
  destruct (BatchFireable.SerializeBatchHeader f w) as [wh [e|]].
  { destruct (IH wh (lg ++ [MultiSearchRequest.header_diagnostic e])%list)
      as (diags & ->).
    exists (MultiSearchRequest.header_diagnostic e :: diags).
    by rewrite <- app_assoc. }
  destruct (BatchFireable.Serialize f wh) as [wb [e|]]; [| apply IH].
  destruct (IH wb (lg ++ [MultiSearchRequest.body_diagnostic e])%list)
    as (diags & ->).
  exists (MultiSearchRequest.body_diagnostic e :: diags).
  by rewrite <- app_assoc.
Qed.

(** C3.  [MultiSearchRequest.Serialize] returns no error, whatever the
    members and the writer do, and it never drops what the log holds: the
    empty request returns the writer and the log as they are, and the log
    after the members before [searchRequest] is the log at the start with
    entries added.  At [searchRequest], a header that fails, or a body that
    fails after its header was written, puts its diagnostic into the log
    right after those entries, and the loop goes on with the members that
    follow, from the writer as the failed step left it; the log returned at
    the end holds the diagnostic at that place, before whatever the later
    members add.  A member that succeeds adds nothing. *)
Theorem msearch_serialize_never_fails {W} `{Writer W}
    (pre post : MultiSearchRequest.t) (searchRequest : BatchFireable.t)
    (w : W) (lg : Log) :
  let result := MultiSearchRequest.Serialize (pre ++ searchRequest :: post) w lg in
  result.2 = None
  ∧ MultiSearchRequest.Serialize [] w lg = (w, lg, None)
  ∧ let '(w1, lg1, _) := MultiSearchRequest.Serialize pre w lg in
    (∃ earlier, lg1 = lg ++ earlier)
    ∧ match BatchFireable.SerializeBatchHeader searchRequest w1 with
      | (w2, Some err) =>
          result = MultiSearchRequest.Serialize post w2
                     (lg1 ++ [MultiSearchRequest.header_diagnostic err])
          ∧ ∃ later,
              result.1.2
              = lg1 ++ [MultiSearchRequest.header_diagnostic err] ++ later
      | (w2, None) =>
          match BatchFireable.Serialize searchRequest w2 with
          | (w3, Some err) =>
              result = MultiSearchRequest.Serialize post w3
                         (lg1 ++ [MultiSearchRequest.body_diagnostic err])
              ∧ ∃ later,
                  result.1.2
                  = lg1 ++ [MultiSearchRequest.body_diagnostic err] ++ later
          | (w3, None) =>
              result = MultiSearchRequest.Serialize post w3 lg1
              ∧ ∃ later, result.1.2 = lg1 ++ later
          end
      end.
Proof.
  intros result. split; [apply msearch_no_error |]. split; [done |].
  pose proof (msearch_log_extends pre w lg) as Hpre.
  unfold result. rewrite msearch_app.
  destruct (MultiSearchRequest.Serialize pre w lg) as [[w1 lg1] e].
  cbn [fst snd] in *. split; [exact Hpre |].
  cbn [MultiSearchRequest.Serialize].
  destruct (BatchFireable.SerializeBatchHeader searchRequest w1) as [w2 [err|]].
  { split; [done |].
    destruct (msearch_log_extends post w2
                (lg1 ++ [MultiSearchRequest.header_diagnostic err]))
      as (later & ->).
    exists later. by rewrite <- app_assoc. }
  destruct (BatchFireable.Serialize searchRequest w2) as [w3 [err|]].
  - split; [done |].
    destruct (msearch_log_extends post w3
                (lg1 ++ [MultiSearchRequest.body_diagnostic err]))
      as (later & ->).
    exists later. by rewrite <- app_assoc.
  - split; [done |]. apply msearch_log_extends.
Qed.

(** A writer with room for one header line only: the body of the first
    search cannot be encoded, the header of the second does not fit; the
    log holds the two diagnostics, in that order. *)
Example msearch_logs_both_diagnostics :
  let w := {| written := ""; room := 20 |} in
  let h := (BatchFireable.SerializeBatchHeader
              (BatchFireable.Search fixtures.search_bad) "").1 in
  MultiSearchRequest.Serialize
    [BatchFireable.Search fixtures.search_bad;
     BatchFireable.Search fixtures.search_ok] w ["started"]
  = ({| written := h; room := 5 |},
     ["started";
      MultiSearchRequest.body_diagnostic "json: unsupported type: func()";
      MultiSearchRequest.header_diagnostic "short write"],
     None).
Proof. vm_compute. reflexivity. Qed.

(** ** What one member writes *)

Lemma Encode_ok {W} `{Writer W} `{Marshaler A} (w : W) (v : A) (b : string) :
  marshal v = Ok b → Encode w v = Write w (b +:+ NL).
Proof. unfold Encode. by intros ->. Qed.

Lemma Encode_err {W} `{Writer W} `{Marshaler A} (w : W) (v : A) (e : error) :
  marshal v = Err e → Encode w v = (w, Some e).
Proof. unfold Encode. by intros ->. Qed.

(** The header of a member is always encodable: the call hands one line to
    the writer, the same line whatever the writer. *)
Lemma header_writes (f : BatchFireable.t) :
  ∃ h, count_nl h = 0 ∧
       ∀ W (HW : Writer W) (w : W),
         BatchFireable.SerializeBatchHeader f w = Write w (h +:+ NL).
Proof.
  destruct f as [r|r|r|r|r]; simpl.
  - destruct (headerLine_nl {| SearchRequest.hIndices := SearchRequest.Indices r;
                               SearchRequest.hTypes := SearchRequest.Types r |})
      as (b & Hb & Hnl).
    exists b. split; [done |]. intros. by apply Encode_ok.
  - eexists. split; [apply nested_map_nl |]. intros. by apply Encode_ok.
  - eexists. split; [apply nested_map_nl |]. intros. by apply Encode_ok.
  - eexists. split; [apply nested_map_nl |]. intros. by apply Encode_ok.
  - eexists. split; [apply nested_map_nl |]. intros. by apply Encode_ok.
Qed.

(** The body of a member: one line handed to the writer, or an encoding
    error with nothing written, or, for a delete, nothing at all. *)
Lemma body_writes (f : BatchFireable.t) :
  (isDelete f = false ∧
   ∃ b, count_nl b = 0 ∧
        ∀ W (HW : Writer W) (w : W), BatchFireable.Serialize f w = Write w (b +:+ NL))
  ∨ (isDelete f = false ∧
     ∃ e, ∀ W (HW : Writer W) (w : W), BatchFireable.Serialize f w = (w, Some e))
  ∨ (isDelete f = true ∧
     ∀ W (HW : Writer W) (w : W), BatchFireable.Serialize f w = (w, None)).
Proof.
  assert (Hval : ∀ v : Value,
    (∃ b, count_nl b = 0 ∧ ∀ W (HW : Writer W) (w : W), Encode w v = Write w (b +:+ NL))
    ∨ (∃ e, ∀ W (HW : Writer W) (w : W), Encode w v = (w, Some e))).
  { intros v. destruct (marshal v) as [b|e] eqn:Hm.
    - left. exists b. split; [by apply marshal_Value_nl in Hm |].
      intros. by apply Encode_ok.
    - right. exists e. intros. by apply Encode_err. }
  destruct f as [r|r|r|r|r]; simpl.
  - destruct (Hval (SearchRequest.Query r)); [left | right; left]; done.
  - destruct (Hval (IndexRequest.Source r)); [left | right; left]; done.
  - destruct (Hval (CreateRequest.Source r)); [left | right; left]; done.
  - destruct (Hval (UpdateRequest.Source r)); [left | right; left]; done.
  - right; right. done.
Qed.

(** ** Lines of a bulk body written into a buffer *)

Lemma Buffer_Write (w p : string) : @Write string Buffer w p = (w +:+ p, None).
Proof. reflexivity. Qed.

Lemma member_chunk_count (f : BatchFireable.t) (c : string) :
  member_chunk f c → count_nl c = if isDelete f then 1 else 2.
Proof.
  intros (h & b & -> & Hh & Hb). rewrite count_nl_app, (single_line_count h Hh).
  destruct (isDelete f); [by subst | by rewrite (single_line_count b Hb)].
Qed.

Lemma chunks_count (br : list BatchFireable.t) (chunks : list string) :
  Forall2 member_chunk br chunks →
  count_nl (flatten chunks)
  = length br + length (filter (λ f, isDelete f = false) br).
Proof.
  induction 1 as [|f c br chunks Hc _ IH]; [done |].
  cbn [flatten foldr]. fold (flatten chunks).
  rewrite count_nl_app, IH, (member_chunk_count f c Hc), filter_cons.
  destruct (isDelete f); simpl; lia.
Qed.

Lemma member_output_chunk (f : BatchFireable.t) (c : string) :
  member_output f c → member_chunk f c.
Proof. intros (h & b & E & _ & Hh & _ & Hb). by exists h, b. Qed.

Lemma bulk_buffer_outputs (br : BulkIndexRequest.t) (w out : string) :
  BulkIndexRequest.Serialize br w = (out, None) →
  ∃ chunks, out = w +:+ flatten chunks ∧ Forall2 member_output br chunks.
Proof.
  revert w. induction br as [|f br IH]; intros w Hrun; simpl in Hrun.
  { simplify_eq. exists []. by rewrite app_nil_r_s. }
  destruct (header_writes f) as (h & Hh & Hhead).
  rewrite Hhead, Buffer_Write in Hrun.
  assert (Hhead0 : BatchFireable.SerializeBatchHeader f "" = (h +:+ NL, None))
    by (by rewrite Hhead).
  destruct (body_writes f) as [(Hd & b & Hb & Hbody) | [(Hd & e & Hbody) | (Hd & Hbody)]];
    rewrite Hbody in Hrun; [rewrite Buffer_Write in Hrun | done |].
  - destruct (IH _ Hrun) as (chunks & -> & Hchunks).
    exists (((h +:+ NL) +:+ (b +:+ NL)) :: chunks). split.
    + cbn [flatten foldr]. by rewrite !app_assoc_s.
    + constructor; [| done]. exists (h +:+ NL), (b +:+ NL).
      rewrite Hd, Hbody, Buffer_Write, app_nil_l_s.
      split; [done |]. split; [done |]. split; [by apply single_line_intro |].
      split; [done | by apply single_line_intro].
  - destruct (IH _ Hrun) as (chunks & -> & Hchunks).
    exists (((h +:+ NL) +:+ "") :: chunks). split.
    + cbn [flatten foldr]. by rewrite !app_assoc_s.
    + constructor; [| done]. exists (h +:+ NL), "".
      rewrite Hd, Hbody.
      split; [done |]. split; [done |]. split; [by apply single_line_intro |].
      done.
Qed.

(** C1, as the code has it.  A bulk body that serializes into a buffer
    without error is the run of the members' chunks in order.  The chunk of
    a member is what its [SerializeBatchHeader] writes, exactly one line,
    followed right away by what its [Serialize] writes: exactly one line for
    every member but a delete, and no byte at all, not even an empty line,
    for a delete.  So the body has one line per member and one more per
    member that is not a delete. *)
Theorem bulk_lines_per_member (br : BulkIndexRequest.t) (w out : string) :
  BulkIndexRequest.Serialize br w = (out, None) →
  ∃ chunks,
    out = w +:+ flatten chunks
    ∧ Forall2 member_output br chunks
    ∧ count_nl (flatten chunks)
      = length br + length (filter (λ f, isDelete f = false) br).
Proof.
  intros Hrun. destruct (bulk_buffer_outputs br w out Hrun) as (chunks & E & Hc).
  exists chunks. split; [done |]. split; [done |].
  apply chunks_count. eapply Forall2_impl; [exact Hc |].
  apply member_output_chunk.
Qed.

Lemma bulk_lines_per_member_witness :
  let br := [BatchFireable.Index fixtures.index; BatchFireable.Delete fixtures.delete] in
  let out := (BulkIndexRequest.Serialize br "").1 in
  BulkIndexRequest.Serialize br "" = (out, None)
  ∧ ∃ chunks,
      out = "" +:+ flatten chunks
      ∧ Forall2 member_output br chunks
      ∧ count_nl (flatten chunks) = 3.
Proof.
  intros br out.
  assert (Hrun : BulkIndexRequest.Serialize br "" = (out, None))
    by (vm_compute; reflexivity).
  split; [exact Hrun |].
  exact (bulk_lines_per_member br "" out Hrun).
Defined.

(** C1, as the spec words it, fails.  For the delete of the package's bulk
    test, [SerializeBatchHeader] writes one line and [Serialize] then leaves
    the buffer as it is; the bulk body of that single delete is the header
    line and nothing more, so it is not a header line followed by a body
    line, empty or not. *)
Lemma bulk_delete_has_no_body_line :
  let d := BatchFireable.Delete fixtures.delete in
  let h := (BatchFireable.SerializeBatchHeader d "").1 in
  BatchFireable.SerializeBatchHeader d "" = (h, None)
  ∧ single_line h
  ∧ BatchFireable.Serialize d h = (h, None)
  ∧ BulkIndexRequest.Serialize [d] "" = (h, None)
  ∧ count_nl h = 1
  ∧ ¬ header_and_body_line h.
Proof.
  intros d h.
  assert (Hhead : BatchFireable.SerializeBatchHeader d "" = (h, None))
    by (vm_compute; reflexivity).
  assert (Hline : single_line h).
  { destruct (header_writes d) as (h' & Hh' & Hw).
    rewrite Hw, Buffer_Write in Hhead. injection Hhead as <-.
    rewrite app_nil_l_s. by apply single_line_intro. }
  assert (Hcount : count_nl h = 1) by (by apply single_line_count).
  split; [exact Hhead |]. split; [exact Hline |].
  split; [reflexivity |]. split; [vm_compute; reflexivity |].
  split; [exact Hcount |].
  intros (h1 & b & E & Hh & Hb).
  rewrite E, count_nl_app, (single_line_count h1 Hh), (single_line_count b Hb) in Hcount.
  discriminate.
Qed.

Lemma bulk_serialize_fail_fast_witness :
  let pre := [BatchFireable.Index fixtures.index] in
  let request := BatchFireable.Index fixtures.broken in
  let post := [BatchFireable.Delete fixtures.delete] in
  let w1 := (BulkIndexRequest.Serialize pre "").1 in
  let full := {| written := ""; room := 10 |} in
  (BulkIndexRequest.Serialize pre "" = (w1, None)
   ∧ BulkIndexRequest.Serialize (pre ++ request :: post) ""
     = ((BatchFireable.SerializeBatchHeader request w1).1,
        Some "json: unsupported type: func()"))
  ∧ (BulkIndexRequest.Serialize [] full = (full, None)
     ∧ BulkIndexRequest.Serialize ([] ++ request :: post) full
       = (full, Some "short write")).
Proof.
  intros pre request post w1 full.
  assert (Hpre : BulkIndexRequest.Serialize pre "" = (w1, None))
    by (vm_compute; reflexivity).
  assert (Hnil : BulkIndexRequest.Serialize [] full = (full, None))
    by reflexivity.
  split; (split; [assumption |]).
  - rewrite (bulk_serialize_fail_fast pre post request "" w1 Hpre).
    vm_compute. reflexivity.
  - rewrite (bulk_serialize_fail_fast [] post request full full Hnil).
    vm_compute. reflexivity.
Defined.

(** ** The body of a multi-search request *)

(** The earlier [Body] keeps a member only once both its lines are there. *)
Lemma Body_lines_app (r : MultiSearchRequest.t0) (lines : list string) (lg : Log) :
  (MultiSearchRequest.Body_lines r lines lg).1
  = (lines ++ (MultiSearchRequest.Body_lines r [] lg).1)%list.
Proof.
  revert lines lg. induction r as [|s r IH]; intros lines lg; simpl.
  { by rewrite app_nil_r. }
  destruct (SearchRequest.Body s) as [b|e]; [| apply IH].
  rewrite IH. symmetry. rewrite IH. by rewrite <- !app_assoc.
Qed.

Lemma Body_skips_failed_member (good bad : SearchRequest.t) (lg : Log)
    (h b : string) (e : error) :
  marshal {| SearchRequest.hIndices := SearchRequest.Indices good;
             SearchRequest.hTypes := SearchRequest.Types good |} = Ok h →
  SearchRequest.Body good = Ok b →
  SearchRequest.Body bad = Err e →
  (MultiSearchRequest.Body [good; bad] lg).1.1 = h +:+ NL +:+ b +:+ NL
  ∧ (MultiSearchRequest.Body [bad; good] lg).1.1 = h +:+ NL +:+ b +:+ NL.
Proof.
  intros Hh Hb He.
  injection Hh as <-.
  unfold MultiSearchRequest.Body.
  cbn [MultiSearchRequest.Body_lines]. rewrite Hb, He.
  cbn -[String.append NL object]. by rewrite !app_assoc_s.
Qed.

(** C4 fails on the streaming [Serialize].  For the good search followed by
    the search whose query cannot be encoded, the buffer holds the good
    member's header line and body line and then the header line of the
    failed member, which was written before its body was tried.  The earlier
    [Body] yields the good member's two lines alone for the same members. *)
Theorem msearch_failed_member_leaves_header :
  ∃ h b h',
    marshal {| SearchRequest.hIndices := ["a"; "b"]; SearchRequest.hTypes := [] |} = Ok h
    ∧ Marshal fixtures.john = Ok b
    ∧ marshal {| SearchRequest.hIndices := []; SearchRequest.hTypes := ["t"] |} = Ok h'
    ∧ h' ≠ ""
    ∧ MultiSearchRequest.Serialize
        [BatchFireable.Search fixtures.search_ok;
         BatchFireable.Search fixtures.search_bad] "" []
      = ((h +:+ NL +:+ b +:+ NL) +:+ h' +:+ NL,
         [MultiSearchRequest.body_diagnostic "json: unsupported type: func()"],
         None)
    ∧ MultiSearchRequest.Body [fixtures.search_ok; fixtures.search_bad] []
      = (h +:+ NL +:+ b +:+ NL,
         [MultiSearchRequest.body_diagnostic "json: unsupported type: func()"],
         None).
Proof.
  do 3 eexists. split; [reflexivity |]. split; [reflexivity |].
  split; [reflexivity |]. split; [discriminate |].
  split; vm_compute; reflexivity.
Qed.

Lemma ends_with_nl_nonempty (s : string) : ends_with_nl s = true → s ≠ "".
Proof. by destruct s. Qed.

(** Streaming into a buffer: what is appended is empty for the empty
    request and ends with a newline otherwise, since the header of every
    member is written. *)
Lemma msearch_buffer_tail (r : MultiSearchRequest.t) :
  ∀ (w : string) (lg : Log),
    ∃ s, (MultiSearchRequest.Serialize r w lg).1.1 = w +:+ s
         ∧ (r = [] → s = "")
         ∧ (r ≠ [] → ends_with_nl s = true).
Proof.
  induction r as [|f r IH]; intros w lg.
  { exists "". simpl. by rewrite app_nil_r_s. }
  assert (Hstep : ∀ (chunk : string) (lg' : Log),
    ends_with_nl chunk = true →
    ∃ s, (MultiSearchRequest.Serialize r (w +:+ chunk) lg').1.1 = w +:+ s
         ∧ (f :: r = [] → s = "") ∧ (f :: r ≠ [] → ends_with_nl s = true)).
  { intros chunk lg' Hchunk.
    destruct (IH (w +:+ chunk) lg') as (s & -> & Hnil & Hcons).
    exists (chunk +:+ s). split; [by rewrite app_assoc_s |]. split; [done |].
    intros _. destruct r as [|f' r].
    - by rewrite Hnil, app_nil_r_s.
    - rewrite ends_with_nl_app; [by apply Hcons |].
      by apply ends_with_nl_nonempty, Hcons. }
  simpl.
  destruct (header_writes f) as (h & Hh & Hhead).
  rewrite Hhead, Buffer_Write.
  destruct (body_writes f) as [(Hd & b & Hb & Hbody) | [(Hd & e & Hbody) | (Hd & Hbody)]];
    rewrite Hbody.
  - rewrite Buffer_Write, app_assoc_s.
    apply Hstep. rewrite <- app_assoc_s. apply ends_with_nl_snoc.
  - apply Hstep, ends_with_nl_snoc.
  - apply Hstep, ends_with_nl_snoc.
Qed.

(** The earlier [Body] ends every body with a newline and returns no
    error, for the empty request and when every member was skipped as
    well. *)
Lemma Body_ends_with_newline (r : MultiSearchRequest.t0) (lg : Log) :
  ends_with_nl (MultiSearchRequest.Body r lg).1.1 = true
  ∧ (MultiSearchRequest.Body r lg).2 = None.
Proof.
  unfold MultiSearchRequest.Body.
  destruct (MultiSearchRequest.Body_lines r [] lg) as [lines lg'].
  split; [apply ends_with_nl_snoc | done].
Qed.

(** C5 fails on the streaming [Serialize].  For the empty request it writes
    nothing: the buffer stays empty and so does not end with a newline.  The
    earlier [Body], whose comment asks for the trailing newline, returns a
    single newline for the same request. *)
Theorem msearch_empty_has_no_trailing_newline :
  MultiSearchRequest.Serialize [] "" [] = ("", [], None)
  ∧ ends_with_nl (MultiSearchRequest.Serialize [] "" []).1.1 = false
  ∧ MultiSearchRequest.Body [] [] = (NL, [], None)
  ∧ ends_with_nl (MultiSearchRequest.Body [] []).1.1 = true.
Proof. repeat split; reflexivity. Qed.

(** ** The metadata of a batch header *)

Lemma Get_first (v : url.Values) (k : string) (vs : list string) :
  url.entries v !! k = Some vs → url.Get v k = default "" (head vs).
Proof. unfold url.Get. intros ->. by destruct vs. Qed.

Lemma range_lookup (g : string → string) (keys : list string) :
  ∀ (base : gmap string string) (k : string),
    foldl (λ metadata k', <[k' := g k']> metadata) base keys !! k
    = if decide (k ∈ keys) then Some (g k) else base !! k.
Proof.
  induction keys as [|k0 keys IH]; intros base k; cbn [foldl].
  { rewrite decide_False; [done | apply not_elem_of_nil]. }
  rewrite IH. destruct (decide (k ∈ keys)) as [Hin|Hin].
  - rewrite decide_True; [done | rewrite elem_of_cons; by right].
  - destruct (decide (k = k0)) as [->|Hne].
    + rewrite lookup_insert_eq. rewrite decide_True; [done | rewrite elem_of_cons; by left].
    + rewrite lookup_insert_ne by done.
      rewrite decide_False; [done |]. rewrite elem_of_cons. by intros [?|?].
Qed.

Lemma elem_of_keys (v : url.Values) (k : string) :
  k ∈ (map_to_list (url.entries v)).*1 ↔ is_Some (url.entries v !! k).
Proof.
  rewrite list_elem_of_fmap. split.
  - intros ([k' vs] & -> & Hin). apply elem_of_map_to_list in Hin. by eexists.
  - intros [vs Hvs]. exists (k, vs). split; [done |]. by apply elem_of_map_to_list.
Qed.

Lemma range_order_canonical (v : url.Values) :
  range_order v (map_to_list (url.entries v)).*1.
Proof. unfold range_order. reflexivity. Qed.

Lemma actionMetadata_range_lookup (keys : list string) (index t id : string)
    (v : url.Values) (k : string) :
  range_order v keys →
  actionMetadata_range keys index t id v !! k
  = match url.entries v !! k with
    | Some vs => Some (default "" (head vs))
    | None => ({[ "_index" := index; "_type" := t; "_id" := id ]}
                 : gmap string string) !! k
    end.
Proof.
  intros Hkeys. unfold actionMetadata_range.
  rewrite (range_lookup (url.Get v)).
  destruct (url.entries v !! k) as [vs|] eqn:Hk.
  - rewrite decide_True; [by rewrite (Get_first v k vs) |].
    rewrite Hkeys. apply elem_of_keys. by rewrite Hk.
  - rewrite decide_False; [done |].
    rewrite Hkeys, elem_of_keys, Hk. by intros [? ?].
Qed.

(** The loop of [actionMetadata] builds the same map whatever the order in
    which the keys of the options are ranged over. *)
Lemma actionMetadata_range_order (keys keys' : list string) (index t id : string)
    (v : url.Values) :
  range_order v keys → range_order v keys' →
  actionMetadata_range keys index t id v = actionMetadata_range keys' index t id v.
Proof.
  intros H H'. apply map_eq. intros k.
  by rewrite !actionMetadata_range_lookup.
Qed.

Lemma nested_map_singleton (verb : string) (metadata : gmap string string) :
  nested_map {[ verb := metadata ]} = object [(verb, string_map metadata)].
Proof.
  unfold nested_map, sorted_entries. rewrite map_to_list_singleton. reflexivity.
Qed.

Lemma actionMetadata_line (verb index t id : string) (v : url.Values) :
  batch_header_line verb index t id v
    (nested_map (actionMetadata verb index t id v) +:+ NL).
Proof.
  exists (actionMetadata_range (map_to_list (url.entries v)).*1 index t id v).
  unfold actionMetadata. rewrite nested_map_singleton.
  split; [done |]. split.
  { apply single_line_intro. rewrite <- nested_map_singleton. apply nested_map_nl. }
  split.
  - intros k vs Hk.
    rewrite actionMetadata_range_lookup by apply range_order_canonical.
    by rewrite Hk.
  - intros k Hk.
    rewrite actionMetadata_range_lookup by apply range_order_canonical.
    by rewrite Hk.
Qed.

(** C6.  For each of the four write operations, [SerializeBatchHeader]
    appends to a buffer exactly one line, the object from the verb to the
    metadata object.  In the metadata every extra option is a single string,
    the first of its values (the empty string when it has none), and
    [_index], [_type] and [_id] are the fields of the operation where no
    option bears their name. *)
Theorem write_batch_header_line :
  (∀ (r : IndexRequest.t) (w : string),
     ∃ line, IndexRequest.SerializeBatchHeader r w = (w +:+ line, None)
             ∧ batch_header_line "index" (IndexRequest.Index r) (IndexRequest.Type_ r)
                 (IndexRequest.Id r) (IndexRequest.Params r) line)
  ∧ (∀ (r : CreateRequest.t) (w : string),
       ∃ line, CreateRequest.SerializeBatchHeader r w = (w +:+ line, None)
               ∧ batch_header_line "create" (CreateRequest.Index r) (CreateRequest.Type_ r)
                   (CreateRequest.Id r) (CreateRequest.Params r) line)
  ∧ (∀ (r : UpdateRequest.t) (w : string),
       ∃ line, UpdateRequest.SerializeBatchHeader r w = (w +:+ line, None)
               ∧ batch_header_line "update" (UpdateRequest.Index r) (UpdateRequest.Type_ r)
                   (UpdateRequest.Id r) (UpdateRequest.Params r) line)
  ∧ (∀ (r : DeleteRequest.t) (w : string),
       ∃ line, DeleteRequest.SerializeBatchHeader r w = (w +:+ line, None)
               ∧ batch_header_line "delete" (DeleteRequest.Index r) (DeleteRequest.Type_ r)
                   (DeleteRequest.Id r) (DeleteRequest.Params r) line).
Proof.
  repeat split; intros r w; eexists; (split; [reflexivity | apply actionMetadata_line]).
Qed.

(** C9.  When the extra options of a write operation carry a key named
    [_index], [_type] or [_id], the metadata object of the batch header
    holds, under that key, the first value of the option and not the field
    of the operation that the map literal had put there before the loop. *)
Theorem reserved_option_overwrites_field (action index t id : string)
    (v : url.Values) (k : string) (vs : list string) :
  k ∈ ["_index"; "_type"; "_id"] →
  url.entries v !! k = Some vs →
  (∃ field, field ∈ [index; t; id]
            ∧ actionMetadata_range [] index t id v !! k = Some field)
  ∧ ∃ metadata,
      actionMetadata action index t id v !! action = Some metadata
      ∧ metadata !! k = Some (default "" (head vs)).
Proof.
  intros Hk Hvs. split.
  - unfold actionMetadata_range. cbn [foldl].
    rewrite !elem_of_cons, elem_of_nil in Hk.
    destruct Hk as [->|[->|[->|[]]]].
    + exists index. split; [by left |]. by rewrite lookup_insert_eq.
    + exists t. split; [right; by left |].
      rewrite lookup_insert_ne by done. by rewrite lookup_insert_eq.
    + exists id. split; [right; right; by left |].
      do 2 (rewrite lookup_insert_ne by done). by rewrite lookup_singleton_eq.
  - eexists. split; [apply lookup_singleton_eq |].
    rewrite actionMetadata_range_lookup by apply range_order_canonical.
    by rewrite Hvs.
Qed.

Lemma reserved_option_overwrites_field_witness :
  ("_index" ∈ ["_index"; "_type"; "_id"]
   ∧ url.entries fixtures.shadowing !! "_index" = Some ["other"; "third"])
  ∧ ∃ metadata,
      actionMetadata "index" "foo" "bar" "123" fixtures.shadowing !! "index"
      = Some metadata
      ∧ metadata !! "_index" = Some "other".
Proof.
  assert (Hk : "_index" ∈ ["_index"; "_type"; "_id"]) by (by left).
  assert (Hvs : url.entries fixtures.shadowing !! "_index" = Some ["other"; "third"])
    by reflexivity.
  split; [by split |].
  exact (proj2 (reserved_option_overwrites_field "index" "foo" "bar" "123"
                  fixtures.shadowing "_index" ["other"; "third"] Hk Hvs)).
Defined.

(** C10.  What a member hands to the writer depends on the member alone.
    Its batch header is one fixed chunk of bytes, the same for every writer
    and every state of the writer; its body is one fixed chunk, or one fixed
    encoding error with nothing written, or nothing.  The one place where a
    run could differ from another, the order in which [actionMetadata]
    ranges over the options, has no effect on the metadata it builds.  So
    two runs on the same operation write the same bytes. *)
Theorem serialization_is_deterministic :
  (∀ f : BatchFireable.t,
     ∃ h : string, ∀ W (HW : Writer W) (w : W),
       BatchFireable.SerializeBatchHeader f w = Write w h)
  ∧ (∀ f : BatchFireable.t,
       ∃ body : option (result string), ∀ W (HW : Writer W) (w : W),
         BatchFireable.Serialize f w
         = match body with
           | Some (Ok b) => Write w b
           | Some (Err e) => (w, Some e)
           | None => (w, None)
           end)
  ∧ (∀ (keys keys' : list string) (index t id : string) (v : url.Values),
       range_order v keys → range_order v keys' →
       actionMetadata_range keys index t id v
       = actionMetadata_range keys' index t id v).
Proof.
  split; [| split].
  - intros f. destruct (header_writes f) as (h & _ & Hh). by exists (h +:+ NL).
  - intros f.
    destruct (body_writes f) as [(_ & b & _ & Hb) | [(_ & e & He) | (_ & Hd)]].
    + by exists (Some (Ok (b +:+ NL))).
    + by exists (Some (Err e)).
    + by exists None.
  - apply actionMetadata_range_order.
Qed.

Lemma serialization_is_deterministic_witness :
  let v : url.Values := Some {[ "refresh" := ["true"]; "routing" := ["7"; "8"] ]} in
  (range_order v ["refresh"; "routing"] ∧ range_order v ["routing"; "refresh"])
  ∧ actionMetadata_range ["refresh"; "routing"] "foo" "bar" "123" v
    = actionMetadata_range ["routing"; "refresh"] "foo" "bar" "123" v.
Proof.
  intros v.
  assert (Hkeys : (map_to_list (url.entries v)).*1 = ["routing"; "refresh"])
    by (vm_compute; reflexivity).
  assert (H1 : range_order v ["refresh"; "routing"]).
  { unfold range_order. rewrite Hkeys. apply perm_swap. }
  assert (H2 : range_order v ["routing"; "refresh"])
    by (unfold range_order; by rewrite Hkeys).
  split; [by split |].
  exact (proj2 (proj2 serialization_is_deterministic) _ _ "foo" "bar" "123" v H1 H2).
Defined.

(** ** The path of a search *)

Lemma Split_no_sep (e : string) (c : ascii) :
  strings.Contains e c = false → strings.Split e c = [e].
Proof.
  induction e as [|x e IH]; simpl; [done |].
  intros [Hx He]%orb_false_elim. rewrite Hx, (IH He). done.
Qed.

Lemma Split_app_sep (e rest : string) (c : ascii) :
  strings.Contains e c = false →
  strings.Split (e +:+ String c rest) c = e :: strings.Split rest c.
Proof.
  induction e as [|x e IH]; intros He.
  - rewrite app_nil_l_s. simpl. by rewrite Ascii.eqb_refl.
  - simpl in He. apply orb_false_elim in He as [Hx He].
    rewrite app_cons_s. simpl. rewrite Hx, (IH He). done.
Qed.

(** Splitting a comma-joined list at the commas gives the list back: the
    elements stand in the order given, repeats included. *)
Lemma Split_Join (l : list string) :
  l ≠ [] → Forall comma_free l →
  strings.Split (strings.Join l ",") "," = l.
Proof.
  intros Hl Hfree. induction Hfree as [|e l He Hfree IH]; [done |].
  destruct l as [|e' l].
  - by apply Split_no_sep.
  - change (strings.Join (e :: e' :: l) ",")
      with (e +:+ String "," (strings.Join (e' :: l) ",")).
    rewrite Split_app_sep by done. by rewrite IH.
Qed.

(** C7.  [Path] never panics and returns one of four shapes, chosen by
    which of [Indices] and [Types] is empty.  Each list shows comma-joined
    in the order given, repeats included: splitting the joined text at the
    commas gives the list back, when no name holds a comma. *)
Theorem search_path_shapes (r : SearchRequest.t) :
  SearchRequest.Path r
  = Returns
      match SearchRequest.Indices r, SearchRequest.Types r with
      | [], [] => "/_search"
      | _ :: _, [] =>
          "/" +:+ strings.Join (SearchRequest.Indices r) "," +:+ "/_search"
      | [], _ :: _ =>
          "/_all/" +:+ strings.Join (SearchRequest.Types r) "," +:+ "/_search"
      | _ :: _, _ :: _ =>
          "/" +:+ strings.Join (SearchRequest.Indices r) "," +:+ "/"
              +:+ strings.Join (SearchRequest.Types r) "," +:+ "/_search"
      end
  ∧ (SearchRequest.Indices r ≠ [] → Forall comma_free (SearchRequest.Indices r) →
     strings.Split (strings.Join (SearchRequest.Indices r) ",") ","
     = SearchRequest.Indices r)
  ∧ (SearchRequest.Types r ≠ [] → Forall comma_free (SearchRequest.Types r) →
     strings.Split (strings.Join (SearchRequest.Types r) ",") ","
     = SearchRequest.Types r).
Proof.
  split; [| split; apply Split_Join].
  unfold SearchRequest.Path.
  by destruct (SearchRequest.Indices r), (SearchRequest.Types r).
Qed.

Lemma search_path_shapes_witness :
  let r := fixtures.search_both in
  (SearchRequest.Indices r ≠ [] ∧ Forall comma_free (SearchRequest.Indices r)
   ∧ SearchRequest.Types r ≠ [] ∧ Forall comma_free (SearchRequest.Types r))
  ∧ SearchRequest.Path r = Returns "/b,a,b/t,s/_search"
  ∧ strings.Split (strings.Join (SearchRequest.Indices r) ",") "," = ["b"; "a"; "b"]
  ∧ strings.Split (strings.Join (SearchRequest.Types r) ",") "," = ["t"; "s"].
Proof.
  intros r.
  assert (Hi : SearchRequest.Indices r ≠ []) by discriminate.
  assert (Ht : SearchRequest.Types r ≠ []) by discriminate.
  assert (Hfi : Forall comma_free (SearchRequest.Indices r))
    by (repeat constructor).
  assert (Hft : Forall comma_free (SearchRequest.Types r))
    by (repeat constructor).
  destruct (search_path_shapes r) as (Hpath & Hsi & Hst).
  split; [done |]. split; [exact Hpath |].
  split; [exact (Hsi Hi Hfi) | exact (Hst Ht Hft)].
Defined.

(** ** The values of an operation with no options *)

Lemma Encode_empty (v : url.Values) : url.entries v = ∅ → url.Encode v = "".
Proof.
  unfold url.Encode, sorted_entries. intros ->.
  by rewrite map_to_list_empty.
Qed.

(** C8, as the code has it.  An operation built with no explicit options
    has a nil [Params].  Its [Values] then reads as the empty mapping and
    encodes to the empty string, for all five operations.  For a search it
    is a fresh, non-nil, empty mapping; for an index, create, update or
    delete it is [Params] itself, the nil map. *)
Theorem values_without_options :
  (∀ r : SearchRequest.t, SearchRequest.Params r = None →
     SearchRequest.Values r = Some ∅
     ∧ url.Encode (SearchRequest.Values r) = "")
  ∧ (∀ r : IndexRequest.t, IndexRequest.Params r = None →
       IndexRequest.Values r = None
       ∧ url.entries (IndexRequest.Values r) = ∅
       ∧ url.Encode (IndexRequest.Values r) = "")
  ∧ (∀ r : CreateRequest.t, CreateRequest.Params r = None →
       CreateRequest.Values r = None
       ∧ url.entries (CreateRequest.Values r) = ∅
       ∧ url.Encode (CreateRequest.Values r) = "")
  ∧ (∀ r : UpdateRequest.t, UpdateRequest.Params r = None →
       UpdateRequest.Values r = None
       ∧ url.entries (UpdateRequest.Values r) = ∅
       ∧ url.Encode (UpdateRequest.Values r) = "")
  ∧ (∀ r : DeleteRequest.t, DeleteRequest.Params r = None →
       DeleteRequest.Values r = None
       ∧ url.entries (DeleteRequest.Values r) = ∅
       ∧ url.Encode (DeleteRequest.Values r) = "").
Proof.
  split; [| split; [| split; [| split]]]; intros r Hr.
  - unfold SearchRequest.Values. rewrite Hr.
    split; [done | by apply Encode_empty].
  - unfold IndexRequest.Values. rewrite Hr.
    split; [done |]. split; [done | by apply Encode_empty].
  - unfold CreateRequest.Values. rewrite Hr.
    split; [done |]. split; [done | by apply Encode_empty].
  - unfold UpdateRequest.Values. rewrite Hr.
    split; [done |]. split; [done | by apply Encode_empty].
  - unfold DeleteRequest.Values. rewrite Hr.
    split; [done |]. split; [done | by apply Encode_empty].
Qed.

Lemma values_without_options_witness :
  (SearchRequest.Params fixtures.search_ok = None
   ∧ SearchRequest.Values fixtures.search_ok = Some ∅
   ∧ url.Encode (SearchRequest.Values fixtures.search_ok) = "")
  ∧ (IndexRequest.Params fixtures.plain = None
     ∧ IndexRequest.Values fixtures.plain = None
     ∧ url.Encode (IndexRequest.Values fixtures.plain) = "")
  ∧ (DeleteRequest.Params fixtures.delete = None
     ∧ DeleteRequest.Values fixtures.delete = None
     ∧ url.Encode (DeleteRequest.Values fixtures.delete) = "").
Proof.
  destruct values_without_options as (Hs & Hi & _ & _ & Hd).
  assert (H1 : SearchRequest.Params fixtures.search_ok = None) by reflexivity.
  assert (H2 : IndexRequest.Params fixtures.plain = None) by reflexivity.
  assert (H3 : DeleteRequest.Params fixtures.delete = None) by reflexivity.
  split; [| split].
  - split; [exact H1 | exact (Hs _ H1)].
  - destruct (Hi _ H2) as (? & _ & ?). done.
  - destruct (Hd _ H3) as (? & _ & ?). done.
Defined.

(** C8, as the spec words it, fails: the index request of the tests, built
    without options, answers [Values] with the nil map. *)
Lemma index_values_without_options_is_nil :
  IndexRequest.Params fixtures.plain = None
  ∧ IndexRequest.Values fixtures.plain = None
  ∧ IndexRequest.Values fixtures.plain ≠ Some ∅.
Proof. repeat split. discriminate. Qed.

(** ** The package's tests, replayed *)

(** [TestIndexRequest]: the body is the encoded source and a newline; the
    batch header is the encoding of the expected map and a newline. *)
Example TestIndexRequest :
  IndexRequest.Method fixtures.index = "PUT"
  ∧ url.Encode (IndexRequest.Values fixtures.index)
    = url.Encode (IndexRequest.Params fixtures.index)
  ∧ (∃ expected, Marshal (IndexRequest.Source fixtures.index) = Ok expected
                 ∧ IndexRequest.Serialize fixtures.index "" = (expected +:+ NL, None))
  ∧ IndexRequest.SerializeBatchHeader fixtures.index ""
    = (nested_map
         {[ "index" := {[ "_index" := "foo"; "_type" := "bar"; "_id" := "123";
                          "refresh" := "true" ]} ]} +:+ NL,
       None).
Proof.
  split; [reflexivity |]. split; [reflexivity |].
  split; [eexists; split; reflexivity |].
  vm_compute. reflexivity.
Qed.

(** [TestDeleteRequest]: the body is empty. *)
Example TestDeleteRequest :
  DeleteRequest.Method fixtures.delete = "DELETE"
  ∧ DeleteRequest.Serialize fixtures.delete "" = ("", None)
  ∧ DeleteRequest.SerializeBatchHeader fixtures.delete ""
    = (nested_map
         {[ "delete" := {[ "_index" := "foo"; "_type" := "bar"; "_id" := "321" ]} ]}
         +:+ NL,
       None).
Proof. split; [reflexivity |]. split; [reflexivity |]. vm_compute. reflexivity. Qed.

(** [TestBulkIndexRequest]: three [Encode] calls on the expected side, the
    index header, the source, the delete header. *)
Example TestBulkIndexRequest :
  let r := [BatchFireable.Index fixtures.index; BatchFireable.Delete fixtures.delete] in
  let header1 : gmap string (gmap string string) :=
    {[ "index" := {[ "_index" := "foo"; "_type" := "bar"; "_id" := "123";
                     "refresh" := "true" ]} ]} in
  let header2 : gmap string (gmap string string) :=
    {[ "delete" := {[ "_index" := "foo"; "_type" := "bar"; "_id" := "321" ]} ]} in
  let expected := (Encode (Encode (Encode "" header1).1 fixtures.john).1 header2).1 in
  BulkIndexRequest.Method r = "POST"
  ∧ BulkIndexRequest.Path r = "/_bulk"
  ∧ BulkIndexRequest.Serialize r "" = (expected, None)
  ∧ count_nl expected = 3.
Proof.
  intros r header1 header2 expected.
  split; [reflexivity |]. split; [reflexivity |].
  split; vm_compute; reflexivity.
Qed.

(** * Further properties of the package *)

(** ** The merged values of a multi-search request *)

Lemma extend_extend (o : option (list string)) (a b : list string) :
  extend (extend o a) b = extend o (a ++ b).
Proof.
  destruct a as [|x a]; [done |].
  destruct b as [|y b]; simpl; [by rewrite app_nil_r |].
  by rewrite <- app_assoc.
Qed.

Lemma Add_fold_lookup (key : string) (values : list string) :
  ∀ (v : gmap string (list string)) (k : string),
    foldl (λ v value, url.Add v key value) v values !! k
    = if decide (k = key) then extend (v !! k) values else v !! k.
Proof.
  induction values as [|x values IH]; intros v k; cbn [foldl].
  { by destruct (decide (k = key)). }
  rewrite IH. unfold url.Add.
  destruct (decide (k = key)) as [->|Hne].
  - rewrite lookup_insert_eq.
    change (Some (default [] (v !! key) ++ [x])) with (extend (v !! key) [x]).
    by rewrite extend_extend.
  - by rewrite lookup_insert_ne.
Qed.

Lemma entries_fold_lookup (kvs : list (string * list string)) :
  NoDup kvs.*1 →
  ∀ (v : gmap string (list string)) (k : string),
    foldl (λ v (kv : string * list string),
             foldl (λ v value, url.Add v kv.1 value) v kv.2) v kvs !! k
    = extend (v !! k)
        (default [] ((list_to_map kvs : gmap string (list string)) !! k)).
Proof.
  induction kvs as [|[key values] kvs IH]; intros Hnd v k; cbn [foldl].
  { by rewrite list_to_map_nil, lookup_empty. }
  apply NoDup_cons in Hnd as [Hkey Hnd].
  rewrite IH by done. cbn [fst snd]. rewrite Add_fold_lookup.
  rewrite list_to_map_cons. destruct (decide (k = key)) as [->|Hne].
  - rewrite lookup_insert_eq.
    rewrite (not_elem_of_list_to_map_1 kvs key Hkey). cbn [default from_option].
    by rewrite extend_extend, app_nil_r.
  - by rewrite lookup_insert_ne.
Qed.

Lemma members_fold_lookup {A} (values : A → url.Values) (r : list A) :
  ∀ (v : gmap string (list string)) (k : string),
    foldl (λ v x,
             foldl (λ v (kv : string * list string),
                      foldl (λ v value, url.Add v kv.1 value) v kv.2)
                   v (map_to_list (url.entries (values x))))
          v r !! k
    = extend (v !! k) (values_of_key values r k).
Proof.
  unfold values_of_key.
  induction r as [|x r IH]; intros v k; cbn [foldl fmap list_fmap mjoin list_join].
  { done. }
  rewrite IH, entries_fold_lookup by apply NoDup_fst_map_to_list.
  by rewrite list_to_map_to_list, extend_extend.
Qed.

(** X1.  The values of a multi-search request are never nil, and under each
    key they hold the values the members give that key, member after member
    and in each member's order, repeats kept; a key no member gives a value
    is absent.  The same holds for the earlier revision. *)
Theorem msearch_values_merge :
  (∀ (r : MultiSearchRequest.t) (k : string),
     ∃ m, MultiSearchRequest.Values r = Some m
          ∧ m !! k = match values_of_key BatchFireable.Values r k with
                     | [] => None
                     | vs => Some vs
                     end)
  ∧ (∀ (r : MultiSearchRequest.t0) (k : string),
       ∃ m, MultiSearchRequest.Values0 r = Some m
            ∧ m !! k = match values_of_key SearchRequest.Values r k with
                       | [] => None
                       | vs => Some vs
                       end).
Proof.
  split; intros r k; eexists; (split; [reflexivity |]);
    rewrite members_fold_lookup, lookup_empty;
    by destruct (values_of_key _ r k).
Qed.

(** ** One operation written into a buffer *)

Lemma Serialize_body_of {W} `{Writer W} (f : BatchFireable.t) (w : W) :
  BatchFireable.Serialize f w
  = match body_of f with
    | Some (Ok b) => Write w (b +:+ NL)
    | Some (Err e) => (w, Some e)
    | None => (w, None)
    end.
Proof.
  destruct f as [r|r|r|r|r]; simpl; try done;
    unfold SearchRequest.Serialize, IndexRequest.Serialize,
      CreateRequest.Serialize, UpdateRequest.Serialize, Encode, marshal,
      Value_Marshaler;
    by destruct (Marshal _).
Qed.

Lemma body_of_nl (f : BatchFireable.t) (b : string) :
  body_of f = Some (Ok b) → count_nl b = 0.
Proof.
  destruct f as [r|r|r|r|r]; simpl; intros Hb; simplify_eq;
    by eapply Marshal_nl.
Qed.

Lemma isDelete_body_of (f : BatchFireable.t) :
  isDelete f = true ↔ body_of f = None.
Proof. by destruct f. Qed.

(** X2.  [Serialize] of a single operation into a buffer is all or nothing.
    When it returns no error it has appended exactly one complete line, or
    nothing at all for a delete; when it returns an error the buffer is as
    it was, and the operation is no delete. *)
Theorem serialize_all_or_nothing (f : BatchFireable.t) (w : string) :
  match BatchFireable.Serialize f w with
  | (out, None) =>
      if isDelete f then out = w
      else ∃ line, single_line line ∧ out = w +:+ line
  | (out, Some _) => out = w ∧ isDelete f = false
  end.
Proof.
  rewrite Serialize_body_of.
  destruct (body_of f) as [[b|e]|] eqn:Hbody.
  - rewrite Buffer_Write.
    destruct (isDelete f) eqn:Hd.
    + apply isDelete_body_of in Hd. congruence.
    + exists (b +:+ NL). split; [| done].
      apply single_line_intro. by eapply body_of_nl.
  - split; [done |]. destruct (isDelete f) eqn:Hd; [| done].
    apply isDelete_body_of in Hd. congruence.
  - by rewrite (proj2 (isDelete_body_of f) Hbody).
Qed.

(** ** The batch header of a search *)

Lemma object_nonempty_ne (kv : string * string) (fields : list (string * string)) :
  object (kv :: fields) ≠ object [].
Proof.
  unfold object. destruct fields as [|kv' fields];
    cbn [fmap list_fmap strings.Join]; unfold quote;
    rewrite !app_cons_s, !app_nil_l_s; discriminate.
Qed.

(** X3.  The batch header of a search always encodes: into a buffer it
    appends exactly one complete line and returns no error.  The line is the
    empty object exactly when the search names neither indices nor types. *)
Theorem search_batch_header_line (r : SearchRequest.t) (w : string) :
  ∃ h,
    SearchRequest.SerializeBatchHeader r w = (w +:+ h +:+ NL, None)
    ∧ count_nl h = 0
    ∧ (h = object [] ↔ SearchRequest.Indices r = [] ∧ SearchRequest.Types r = []).
Proof.
  eexists. split; [reflexivity |]. split.
  { destruct (headerLine_nl {| SearchRequest.hIndices := SearchRequest.Indices r;
                               SearchRequest.hTypes := SearchRequest.Types r |})
      as (b & Hb & Hnl).
    by injection Hb as <-. }
  cbn [SearchRequest.hIndices SearchRequest.hTypes].
  destruct (SearchRequest.Indices r) as [|i li], (SearchRequest.Types r) as [|t lt];
    cbn [length Nat.eqb app].
  - done.
  - split; [intros H; by apply object_nonempty_ne in H | by intros [_ ?]].
  - split; [intros H; by apply object_nonempty_ne in H | by intros [? _]].
  - split; [intros H; by apply object_nonempty_ne in H | by intros [? _]].
Qed.

(** ** A bulk request written into a buffer *)

Lemma bulk_cons_buffer (f : BatchFireable.t) (br : BulkIndexRequest.t) (w : string) :
  ∃ h, count_nl h = 0
       ∧ BatchFireable.SerializeBatchHeader f "" = (h +:+ NL, None)
       ∧ BulkIndexRequest.Serialize (f :: br) w
         = match body_of f with
           | Some (Ok b) =>
               BulkIndexRequest.Serialize br ((w +:+ h +:+ NL) +:+ b +:+ NL)
           | Some (Err e) => (w +:+ h +:+ NL, Some e)
           | None => BulkIndexRequest.Serialize br (w +:+ h +:+ NL)
           end.
Proof.
  destruct (header_writes f) as (h & Hh & Hhead).
  exists h. split; [done |]. split; [by rewrite Hhead |].
  cbn [BulkIndexRequest.Serialize].
  rewrite Hhead, Buffer_Write, Serialize_body_of.
  by destruct (body_of f) as [[b|e]|].
Qed.

(** X4.  Into a buffer, a bulk request serializes without error exactly
    when the source of every member can be encoded; deletes, which have no
    source, never stand in the way. *)
Theorem bulk_succeeds_iff (br : BulkIndexRequest.t) (w : string) :
  (BulkIndexRequest.Serialize br w).2 = None
  ↔ Forall (λ f, body_fails f = false) br.
Proof.
  revert w. induction br as [|f br IH]; intros w; [done |].
  destruct (bulk_cons_buffer f br w) as (h & _ & _ & ->).
  rewrite Forall_cons. unfold body_fails at 1.
  destruct (body_of f) as [[b|e]|]; rewrite ?IH; cbn [snd].
  - split; [by intros ? | by intros [_ ?]].
  - split; [by intros ? | by intros [? _]].
  - split; [by intros ? | by intros [_ ?]].
Qed.



(** ** A multi-search request written into a buffer *)

Lemma filter_true_length_cons {A} (P : A → bool) (x : A) (l : list A) :
  length (filter (λ y, P y = true) (x :: l))
  = (if P x then 1 else 0) + length (filter (λ y, P y = true) l).
Proof.
  rewrite filter_cons. destruct (P x); [by rewrite decide_True | by rewrite decide_False].
Qed.

Lemma filter_false_length_cons {A} (P : A → bool) (x : A) (l : list A) :
  length (filter (λ y, P y = false) (x :: l))
  = (if P x then 0 else 1) + length (filter (λ y, P y = false) l).
Proof.
  rewrite filter_cons. destruct (P x); [by rewrite decide_False | by rewrite decide_True].
Qed.



(** ** The earlier [Body], and how the streaming [Serialize] relates to it *)

Lemma Join_NL_count (lines : list string) :
  Forall (λ l, count_nl l = 0) lines →
  count_nl (strings.Join lines NL) = pred (length lines).
Proof.
  induction 1 as [|l [|l' lines] Hl _ IH]; [done | done |].
  change (strings.Join (l :: l' :: lines) NL)
    with (l +:+ NL +:+ strings.Join (l' :: lines) NL).
  rewrite !count_nl_app, Hl, IH, count_nl_NL. reflexivity.
Qed.

Lemma Join_NL_flatten (lines : list string) :
  lines ≠ [] →
  strings.Join lines NL +:+ NL = flatten ((λ l, l +:+ NL) <$> lines).
Proof.
  intros Hne. induction lines as [|l [|l' lines] IH]; [done | |].
  - cbn. by rewrite app_nil_r_s.
  - change (strings.Join (l :: l' :: lines) NL)
      with (l +:+ NL +:+ strings.Join (l' :: lines) NL).
    rewrite !app_assoc_s, IH by done.
    cbn [fmap list_fmap flatten foldr]. by rewrite !app_assoc_s.
Qed.

Lemma Body_lines_spec (r : MultiSearchRequest.t0) :
  ∃ lines diags,
    (∀ acc lg, MultiSearchRequest.Body_lines r acc lg = (acc ++ lines, lg ++ diags))
    ∧ length lines = 2 * length (filter (λ s, query_encodes s = true) r)
    ∧ Forall (λ l, count_nl l = 0) lines
    ∧ length diags = length (filter (λ s, query_encodes s = false) r)
    ∧ (∀ w lg,
         Forall (λ s, query_encodes s = true) r →
         MultiSearchRequest.Serialize (BatchFireable.Search <$> r) w lg
         = (w +:+ flatten ((λ l, l +:+ NL) <$> lines), lg, None)).
Proof.
  unfold MultiSearchRequest.t0 in *.
  induction r as [|s r (lines & diags & Hrun & Hlen & Hnl & Hd & Hser)].
  { exists [], []. split; [intros; by rewrite !app_nil_r |].
    repeat split; try done. intros. simpl. by rewrite app_nil_r_s. }
  destruct (headerLine_nl {| SearchRequest.hIndices := SearchRequest.Indices s;
                             SearchRequest.hTypes := SearchRequest.Types s |})
    as (h & Hh & Hhnl).
  pose proof (filter_true_length_cons query_encodes s r) as Ht.
  pose proof (filter_false_length_cons query_encodes s r) as Hf.
  assert (Hqe : query_encodes s
                = match SearchRequest.Body s with Ok _ => true | Err _ => false end)
    by done.
  rewrite Hqe in Ht, Hf. clear Hqe.
  destruct (SearchRequest.Body s) as [b|e] eqn:Hb.
  - exists (h :: b :: lines), diags. split.
    { intros acc lg. cbn [MultiSearchRequest.Body_lines].
      rewrite Hh, Hb, Hrun. by rewrite <- !app_assoc. }
    rewrite Ht, Hf. cbn [length].
    split; [lia |]. split.
    { repeat constructor; try done. by eapply Marshal_nl. }
    split; [done |].
    intros w lg [_ Hall]%Forall_cons.
    cbn [fmap list_fmap MultiSearchRequest.Serialize BatchFireable.SerializeBatchHeader
         BatchFireable.Serialize].
    unfold SearchRequest.SerializeBatchHeader, SearchRequest.Serialize.
    rewrite (Encode_ok _ _ h Hh), Buffer_Write.
    rewrite (Encode_ok _ (SearchRequest.Query s) b Hb), Buffer_Write.
    fold (@fmap list _ _ _ BatchFireable.Search r).
    rewrite Hser by done.
    cbn [flatten foldr]. by rewrite !app_assoc_s.
  - exists lines, (MultiSearchRequest.body_diagnostic e :: diags). split.
    { intros acc lg. cbn [MultiSearchRequest.Body_lines].
      rewrite Hh, Hb, Hrun. by rewrite <- !app_assoc. }
    rewrite Ht, Hf. cbn [length].
    split; [done |]. split; [done |]. split; [lia |].
    intros w lg [Hs _]%Forall_cons. unfold query_encodes in Hs.
    by rewrite Hb in Hs.
Qed.

(** X7.  The earlier [Body] returns, without error, two lines for each
    member whose query encodes, none of them with a newline inside, joined
    by newlines and closed by one more, so that every line ends with a
    newline; it logs one diagnostic for each of the other members.  When no
    member is kept, also for the empty request, the body is a single
    newline. *)
Theorem msearch_body_lines (r : MultiSearchRequest.t0) (lg : Log) :
  ∃ lines diags,
    MultiSearchRequest.Body r lg = (strings.Join lines NL +:+ NL, lg ++ diags, None)
    ∧ length lines = 2 * length (filter (λ s, query_encodes s = true) r)
    ∧ length diags = length (filter (λ s, query_encodes s = false) r)
    ∧ Forall (λ l, count_nl l = 0) lines
    ∧ count_nl (strings.Join lines NL +:+ NL) = Nat.max 1 (length lines)
    ∧ strings.Join lines NL +:+ NL
      = match lines with
        | [] => NL
        | _ => flatten ((λ l, l +:+ NL) <$> lines)
        end.
Proof.
  destruct (Body_lines_spec r) as (lines & diags & Hrun & Hlen & Hnl & Hd & _).
  exists lines, diags. unfold MultiSearchRequest.Body. rewrite Hrun.
  split; [done |]. split; [done |]. split; [done |]. split; [done |]. split.
  - rewrite count_nl_app, Join_NL_count, count_nl_NL by done. lia.
  - destruct lines as [|l lines]; [done | by apply Join_NL_flatten].
Qed.

(** X8.  For a request with at least one member, all of whose queries
    encode, the streaming [Serialize] writes into an empty buffer exactly
    the bytes the earlier [Body] returns, and both leave the log alone. *)
Theorem msearch_serialize_agrees_with_body (r : MultiSearchRequest.t0) (lg : Log) :
  r ≠ [] →
  Forall (λ s, query_encodes s = true) r →
  MultiSearchRequest.Serialize (BatchFireable.Search <$> r) "" lg
  = MultiSearchRequest.Body r lg.
Proof.
  unfold MultiSearchRequest.t0 in *. intros Hne Hall.
  destruct (Body_lines_spec r) as (lines & diags & Hrun & Hlen & Hnl & Hd & Hser).
  rewrite Hser by done. unfold MultiSearchRequest.Body. rewrite Hrun.
  unfold MultiSearchRequest.t0 in *.
  assert (Hdiags : diags = []).
  { apply length_zero_iff_nil. rewrite Hd.
    clear -Hall. induction Hall as [|s r Hs _ IH]; [done |].
    by rewrite filter_false_length_cons, Hs, IH. }
  assert (Hlines : lines ≠ []).
  { intros ->. destruct r as [|s r]; [done |].
    apply Forall_cons in Hall as [Hs _].
    rewrite filter_true_length_cons, Hs in Hlen. simpl in Hlen. lia. }
  subst diags. by rewrite app_nil_r, app_nil_l_s, Join_NL_flatten.
Qed.

Lemma msearch_serialize_agrees_with_body_witness :
  let r := [fixtures.search_ok; fixtures.search_both] in
  (r ≠ [] ∧ Forall (λ s, query_encodes s = true) r)
  ∧ MultiSearchRequest.Serialize (BatchFireable.Search <$> r) "" []
    = MultiSearchRequest.Body r [].
Proof.
  intros r.
  assert (Hne : r ≠ []) by discriminate.
  assert (Hall : Forall (λ s, query_encodes s = true) r)
    by (repeat constructor).
  split; [by split |].
  exact (msearch_serialize_agrees_with_body r [] Hne Hall).
Defined.

(** ** The keys of the header metadata *)

(** X9.  The value [actionMetadata] returns has the action as its only key.
    The metadata under it has exactly the keys [_index], [_type], [_id] and
    the keys of the options; with no options at all it is the three base
    fields and nothing more. *)
Theorem action_metadata_keys (action index t id : string) (v : url.Values) :
  ∃ metadata : gmap string string,
    actionMetadata action index t id v = {[ action := metadata ]}
    ∧ dom metadata = {[ "_index"; "_type"; "_id" ]} ∪ dom (url.entries v)
    ∧ (url.entries v = ∅ →
       metadata = {[ "_index" := index; "_type" := t; "_id" := id ]}).
Proof.
  eexists. split; [reflexivity |]. split.
  - apply set_eq. intros k.
    rewrite elem_of_dom, actionMetadata_range_lookup by apply range_order_canonical.
    rewrite elem_of_union, elem_of_dom.
    destruct (url.entries v !! k) as [vs|] eqn:Hk.
    + split; [intros _; right; by eexists | by eexists].
    + rewrite <- elem_of_dom, !dom_insert_L, dom_singleton_L.
      split; [intros ?; by left | intros [?|[? ?]]; done].
  - intros Hv. unfold actionMetadata_range. by rewrite Hv, map_to_list_empty.
Qed.

Lemma action_metadata_keys_witness :
  url.entries (IndexRequest.Params fixtures.plain) = ∅
  ∧ ∃ metadata : gmap string string,
      actionMetadata "index" "foo" "bar" "123" (IndexRequest.Params fixtures.plain)
      = {[ "index" := metadata ]}
      ∧ metadata = {[ "_index" := "foo"; "_type" := "bar"; "_id" := "123" ]}.
Proof.
  assert (Hv : url.entries (IndexRequest.Params fixtures.plain) = ∅) by reflexivity.
  split; [exact Hv |].
  destruct (action_metadata_keys "index" "foo" "bar" "123"
              (IndexRequest.Params fixtures.plain)) as (metadata & E & _ & Hbase).
  exists metadata. split; [exact E | exact (Hbase Hv)].
Defined.

(** ** The paths of the write requests *)

Lemma length_app_s (a b : string) :
  String.length (a +:+ b) = String.length a + String.length b.
Proof.
  induction a as [|x a IH]; [done |].
  rewrite app_cons_s. simpl. by rewrite IH.
Qed.

Lemma length_zero_s (a : string) : String.length a = 0 ↔ a = "".
Proof. by destruct a. Qed.

Lemma Contains_cons_false (c x : ascii) (e : string) :
  strings.Contains (String x e) c = false →
  Ascii.eqb x c = false ∧ strings.Contains e c = false.
Proof. simpl. by intros [? ?]%orb_false_elim. Qed.

Lemma at_elem_end_tail_str (l : list string) : path.at_elem_end (tail_str l) = true.
Proof. by destruct l. Qed.

(** Copying an element: the bytes up to the next slash go to the buffer. *)
Lemma Clean_loop_copy (rooted : bool) (e : string) :
  ∀ (rest out : string) (dotdot : nat),
    strings.Contains e "/" = false →
    path.Clean_loop rooted true (e +:+ rest) out dotdot
    = path.Clean_loop rooted true rest (out +:+ e) dotdot.
Proof.
  induction e as [|c e IH]; intros rest out dotdot He.
  { by rewrite app_nil_l_s, app_nil_r_s. }
  apply Contains_cons_false in He as [Hc He].
  rewrite app_cons_s. cbn [path.Clean_loop]. unfold path.is_slash. rewrite Hc.
  rewrite IH by done. by rewrite app_assoc_s.
Qed.

(** At the start of an element that is a name, the loop takes the default
    case: it writes the separator, if the buffer calls for one, and copies
    the name. *)
Lemma Clean_loop_elem (e rest out : string) (dotdot : nat) :
  path_elem e → path.at_elem_end rest = true →
  path.Clean_loop false false (e +:+ rest) out dotdot
  = path.Clean_loop false true rest (path.with_sep false out +:+ e) dotdot.
Proof.
  intros (Hne & Hslash & Hdot & Hdotdot) Hrest.
  destruct e as [|c e]; [done |].
  apply Contains_cons_false in Hslash as [Hc He].
  assert (Hdefault :
    path.Clean_loop false false (String c e +:+ rest) out dotdot
    = path.Clean_loop false true (e +:+ rest)
        (path.with_sep false out +:+ String c "") dotdot).
  { rewrite app_cons_s. cbn [path.Clean_loop]. unfold path.is_slash at 1. rewrite Hc.
    destruct (path.is_dot c) eqn:Hcdot.
    - apply Ascii.eqb_eq in Hcdot as ->.
      destruct e as [|c' e].
      + done.
      + apply Contains_cons_false in He as [Hc' He].
        rewrite app_cons_s. cbn [path.at_elem_end andb]. unfold path.is_slash at 1.
        rewrite Hc'. cbn [andb].
        destruct (path.is_dot c') eqn:Hc'dot; [| done].
        apply Ascii.eqb_eq in Hc'dot as ->.
        destruct e as [|c'' e]; [done |].
        apply Contains_cons_false in He as [Hc'' He].
        rewrite app_cons_s. cbn [path.at_elem_end andb]. unfold path.is_slash at 1.
        by rewrite Hc''.
    - cbn [andb]. by destruct (e +:+ rest). }
  rewrite Hdefault, Clean_loop_copy by done.
  by rewrite app_assoc_s.
Qed.

Lemma with_sep_nonempty (out : string) :
  out ≠ "" → path.with_sep false out = out +:+ "/".
Proof.
  intros Hout. unfold path.with_sep. cbn [andb orb negb].
  destruct (String.length out =? 0) eqn:E; [| done].
  apply Nat.eqb_eq, length_zero_s in E. done.
Qed.

Lemma app_nonempty_s (a b : string) : b ≠ "" → a +:+ b ≠ "".
Proof. intros Hb. destruct a; [done | by rewrite app_cons_s]. Qed.

(** The loop over the elements that follow in the buffer of [path.Join]:
    empty ones leave no trace, names are appended after a slash. *)
Lemma Clean_loop_fields (l : list string) :
  Forall path_field l →
  (∀ (e out : string) (dotdot : nat),
     path_field e → out ≠ "" →
     path.Clean_loop false false (e +:+ tail_str l) out dotdot
     = out +:+ tail_str (filter (λ e, e ≠ "") (e :: l)))
  ∧ (∀ (out : string) (dotdot : nat),
       out ≠ "" →
       path.Clean_loop false true (tail_str l) out dotdot
       = out +:+ tail_str (filter (λ e, e ≠ "") l)).
Proof.
  induction 1 as [|e' l He' Hl [IHstart IHtail]].
  - split.
    + intros e out dotdot [->|He] Hout.
      * rewrite filter_cons, decide_False by (by intros ?).
        cbn. by rewrite !app_nil_r_s.
      * rewrite Clean_loop_elem, with_sep_nonempty by done.
        rewrite filter_cons, decide_True by apply He.
        cbn. by rewrite app_nil_r_s, app_assoc_s.
    + intros out dotdot Hout. cbn. by rewrite app_nil_r_s.
  - assert (Htail : ∀ (out : string) (dotdot : nat),
        out ≠ "" →
        path.Clean_loop false true (tail_str (e' :: l)) out dotdot
        = out +:+ tail_str (filter (λ e, e ≠ "") (e' :: l))).
    { intros out dotdot Hout. cbn [tail_str foldr]. fold (tail_str l).
      rewrite app_cons_s, app_nil_l_s. cbn [path.Clean_loop].
      change (path.is_slash "/") with true. cbv iota.
      by apply IHstart. }
    split; [| exact Htail].
    intros e out dotdot [->|He] Hout.
    + rewrite app_nil_l_s, filter_cons, decide_False by (by intros ?).
      cbn [tail_str foldr]. fold (tail_str l).
      rewrite app_cons_s, app_nil_l_s. cbn [path.Clean_loop].
      change (path.is_slash "/") with true. cbv iota.
      by apply IHstart.
    + rewrite Clean_loop_elem, with_sep_nonempty; [| done | done | apply at_elem_end_tail_str].
      rewrite Htail by (apply app_nonempty_s; apply He).
      rewrite (filter_cons _ e), decide_True by apply He.
      cbn [tail_str foldr]. by rewrite !app_assoc_s.
Qed.

Lemma Clean_fields (e : string) (l : list string) :
  path_elem e → Forall path_field l →
  path.Clean (e +:+ tail_str l) = e +:+ tail_str (filter (λ e, e ≠ "") l).
Proof.
  intros He Hl.
  assert (Hout : path.Clean_loop false false (e +:+ tail_str l) "" 0
                 = e +:+ tail_str (filter (λ e, e ≠ "") l)).
  { rewrite Clean_loop_elem; [| done | apply at_elem_end_tail_str].
    change (path.with_sep false "") with "". rewrite app_nil_l_s.
    apply (Clean_loop_fields l Hl). apply He. }
  destruct He as (Hne & Hslash & _).
  destruct e as [|c e]; [done |].
  apply Contains_cons_false in Hslash as [Hc _].
  unfold path.Clean. rewrite app_cons_s. unfold path.is_slash. rewrite Hc.
  rewrite <- app_cons_s, Hout.
  by rewrite app_cons_s.
Qed.

Lemma app_nonempty_l (a b : string) : a ≠ "" → a +:+ b ≠ "".
Proof. intros Ha. destruct a; [done | by rewrite app_cons_s]. Qed.

Lemma Join_buf_from (l : list string) :
  ∀ buf : string,
    buf ≠ "" →
    foldl (λ buf e,
             if (0 <? String.length buf) || negb (String.eqb e "")
             then (if 0 <? String.length buf then buf +:+ "/" else buf) +:+ e
             else buf)
          buf l
    = buf +:+ tail_str l.
Proof.
  induction l as [|e l IH]; intros buf Hbuf; cbn [foldl tail_str foldr].
  { by rewrite app_nil_r_s. }
  fold (tail_str l).
  assert (Hlen : (0 <? String.length buf) = true).
  { apply Nat.ltb_lt. destruct buf; [done | simpl; lia]. }
  rewrite Hlen. cbn [orb]. rewrite IH.
  - by rewrite !app_assoc_s.
  - by do 2 apply app_nonempty_l.
Qed.

Lemma size_fold_ge (l : list string) :
  ∀ n, n ≤ foldl (λ size e, size + String.length e) n l.
Proof.
  induction l as [|e l IH]; intros n; cbn [foldl]; [lia |].
  etrans; [| apply IH]. lia.
Qed.

Lemma strings_Join_tail_str (e : string) (l : list string) :
  strings.Join (e :: l) "/" = e +:+ tail_str l.
Proof.
  revert e. induction l as [|e' l IH]; intros e.
  { cbn. by rewrite app_nil_r_s. }
  change (strings.Join (e :: e' :: l) "/")
    with (e +:+ "/" +:+ strings.Join (e' :: l) "/").
  rewrite IH. reflexivity.
Qed.

(** [path.Join] of fields that are each empty or a name: the names, in
    order, with one slash between them. *)
Lemma path_Join_fields (l : list string) :
  Forall path_field l →
  path.Join l = strings.Join (filter (λ e, e ≠ "") l) "/".
Proof.
  induction 1 as [|e l [->|He] Hl IH].
  - done.
  - rewrite filter_cons, decide_False by (by intros ?). exact IH.
  - rewrite filter_cons, decide_True by apply He.
    rewrite strings_Join_tail_str.
    unfold path.Join, path.Join_buf. cbn [foldl].
    destruct (foldl _ (0 + String.length e) l =? 0) eqn:Hsize.
    { apply Nat.eqb_eq in Hsize.
      pose proof (size_fold_ge l (0 + String.length e)) as Hge.
      rewrite Hsize in Hge.
      destruct He as (Hne & _). destruct e; [done | simpl in Hge; lia]. }
    assert (Hstep : (if (0 <? String.length "") || negb (String.eqb e "")
                     then (if 0 <? String.length "" then "" +:+ "/" else "") +:+ e
                     else "") = e).
    { destruct He as (Hne & _). by destruct e. }
    rewrite Hstep, Join_buf_from by apply He.
    by apply Clean_fields.
Qed.

Lemma path_field_elem (e : string) : path_elem e → path_field e.
Proof. by right. Qed.

Ltac fields_ok :=
  repeat first
    [ apply List.Forall_nil
    | apply List.Forall_cons;
      [first [assumption | apply path_field_elem; by repeat split] |] ].

Lemma path_elem_create : path_elem "_create".
Proof. by repeat split. Qed.

Lemma path_elem_update : path_elem "_update".
Proof. by repeat split. Qed.

(** X10.  When index, type and id are each left empty or are a name (no
    slash in it, neither of the two dot elements), the path of a write
    request is the names among them, in that order, joined by single
    slashes, followed by [_create] or [_update] for a create or an update.
    A field left empty is dropped: it leaves no empty segment and no
    trailing slash. *)
Theorem write_paths_drop_empty_fields :
  (∀ r : IndexRequest.t,
     path_field (IndexRequest.Index r) → path_field (IndexRequest.Type_ r) →
     path_field (IndexRequest.Id r) →
     IndexRequest.Path r
     = strings.Join (filter (λ e, e ≠ "")
         [IndexRequest.Index r; IndexRequest.Type_ r; IndexRequest.Id r]) "/")
  ∧ (∀ r : CreateRequest.t,
       path_field (CreateRequest.Index r) → path_field (CreateRequest.Type_ r) →
       path_field (CreateRequest.Id r) →
       CreateRequest.Path r
       = strings.Join (filter (λ e, e ≠ "")
           [CreateRequest.Index r; CreateRequest.Type_ r; CreateRequest.Id r]
           ++ ["_create"]) "/")
  ∧ (∀ r : UpdateRequest.t,
       path_field (UpdateRequest.Index r) → path_field (UpdateRequest.Type_ r) →
       path_field (UpdateRequest.Id r) →
       UpdateRequest.Path r
       = strings.Join (filter (λ e, e ≠ "")
           [UpdateRequest.Index r; UpdateRequest.Type_ r; UpdateRequest.Id r]
           ++ ["_update"]) "/")
  ∧ (∀ r : DeleteRequest.t,
       path_field (DeleteRequest.Index r) → path_field (DeleteRequest.Type_ r) →
       path_field (DeleteRequest.Id r) →
       DeleteRequest.Path r
       = strings.Join (filter (λ e, e ≠ "")
           [DeleteRequest.Index r; DeleteRequest.Type_ r; DeleteRequest.Id r]) "/").
Proof.
  split; [| split; [| split]]; intros r Hi Ht Hid.
  - unfold IndexRequest.Path. apply path_Join_fields. fields_ok.
  - unfold CreateRequest.Path. rewrite path_Join_fields.
    + change [CreateRequest.Index r; CreateRequest.Type_ r; CreateRequest.Id r; "_create"]
        with ([CreateRequest.Index r; CreateRequest.Type_ r; CreateRequest.Id r]
                ++ ["_create"]).
      by rewrite filter_app.
    + fields_ok.
  - unfold UpdateRequest.Path. rewrite path_Join_fields.
    + change [UpdateRequest.Index r; UpdateRequest.Type_ r; UpdateRequest.Id r; "_update"]
        with ([UpdateRequest.Index r; UpdateRequest.Type_ r; UpdateRequest.Id r]
                ++ ["_update"]).
      by rewrite filter_app.
    + fields_ok.
  - unfold DeleteRequest.Path. apply path_Join_fields. fields_ok.
Qed.

Lemma write_paths_drop_empty_fields_witness :
  (path_field (CreateRequest.Index fixtures.no_id)
   ∧ path_field (CreateRequest.Type_ fixtures.no_id)
   ∧ path_field (CreateRequest.Id fixtures.no_id))
  ∧ CreateRequest.Path fixtures.no_id = "foo/bar/_create".
Proof.
  assert (Hi : path_field (CreateRequest.Index fixtures.no_id))
    by (right; by repeat split).
  assert (Ht : path_field (CreateRequest.Type_ fixtures.no_id))
    by (right; by repeat split).
  assert (Hid : path_field (CreateRequest.Id fixtures.no_id)) by (by left).
  split; [done |].
  rewrite (proj1 (proj2 write_paths_drop_empty_fields) fixtures.no_id Hi Ht Hid).
  reflexivity.
Defined.

(** X11.  When index, type and id are all names, the path of an index or a
    delete request is [index/type/id], that of a create request
    [index/type/id/_create] and that of an update request
    [index/type/id/_update]. *)
Theorem write_paths_of_names :
  (∀ r : IndexRequest.t,
     path_elem (IndexRequest.Index r) → path_elem (IndexRequest.Type_ r) →
     path_elem (IndexRequest.Id r) →
     IndexRequest.Path r
     = IndexRequest.Index r +:+ "/" +:+ IndexRequest.Type_ r +:+ "/"
         +:+ IndexRequest.Id r)
  ∧ (∀ r : CreateRequest.t,
       path_elem (CreateRequest.Index r) → path_elem (CreateRequest.Type_ r) →
       path_elem (CreateRequest.Id r) →
       CreateRequest.Path r
       = CreateRequest.Index r +:+ "/" +:+ CreateRequest.Type_ r +:+ "/"
           +:+ CreateRequest.Id r +:+ "/_create")
  ∧ (∀ r : UpdateRequest.t,
       path_elem (UpdateRequest.Index r) → path_elem (UpdateRequest.Type_ r) →
       path_elem (UpdateRequest.Id r) →
       UpdateRequest.Path r
       = UpdateRequest.Index r +:+ "/" +:+ UpdateRequest.Type_ r +:+ "/"
           +:+ UpdateRequest.Id r +:+ "/_update")
  ∧ (∀ r : DeleteRequest.t,
       path_elem (DeleteRequest.Index r) → path_elem (DeleteRequest.Type_ r) →
       path_elem (DeleteRequest.Id r) →
       DeleteRequest.Path r
       = DeleteRequest.Index r +:+ "/" +:+ DeleteRequest.Type_ r +:+ "/"
           +:+ DeleteRequest.Id r).
Proof.
  split; [| split; [| split]]; intros r Hi Ht Hid;
    pose proof (path_field_elem _ Hi); pose proof (path_field_elem _ Ht);
    pose proof (path_field_elem _ Hid).
  - unfold IndexRequest.Path. rewrite path_Join_fields by fields_ok.
    rewrite !filter_cons, !decide_True by (apply Hi || apply Ht || apply Hid).
    rewrite filter_nil. reflexivity.
  - unfold CreateRequest.Path. rewrite path_Join_fields by fields_ok.
    rewrite !filter_cons, !decide_True
      by (apply Hi || apply Ht || apply Hid || discriminate).
    rewrite filter_nil. reflexivity.
  - unfold UpdateRequest.Path. rewrite path_Join_fields by fields_ok.
    rewrite !filter_cons, !decide_True
      by (apply Hi || apply Ht || apply Hid || discriminate).
    rewrite filter_nil. reflexivity.
  - unfold DeleteRequest.Path. rewrite path_Join_fields by fields_ok.
    rewrite !filter_cons, !decide_True by (apply Hi || apply Ht || apply Hid).
    rewrite filter_nil. reflexivity.
Qed.

Lemma write_paths_of_names_witness :
  (path_elem (CreateRequest.Index fixtures.create)
   ∧ path_elem (CreateRequest.Type_ fixtures.create)
   ∧ path_elem (CreateRequest.Id fixtures.create))
  ∧ CreateRequest.Path fixtures.create = "foo/bar/123/_create".
Proof.
  assert (Hi : path_elem (CreateRequest.Index fixtures.create)) by (by repeat split).
  assert (Ht : path_elem (CreateRequest.Type_ fixtures.create)) by (by repeat split).
  assert (Hid : path_elem (CreateRequest.Id fixtures.create)) by (by repeat split).
  split; [done |].
  rewrite (proj1 (proj2 write_paths_of_names) fixtures.create Hi Ht Hid).
  reflexivity.
Defined.

(** ** A parent element as the id *)

Lemma get_app_r (a s : string) (n : nat) :
  String.get (String.length a + n) (a +:+ s) = String.get n s.
Proof.
  induction a as [|x a IH]; [done |].
  rewrite app_cons_s. simpl. exact IH.
Qed.

Lemma get_not_slash (b : string) :
  strings.Contains b "/" = false → ∀ n, String.get n b ≠ Some "/"%char.
Proof.
  induction b as [|x b IH]; intros Hb n; [by destruct n |].
  apply Contains_cons_false in Hb as [Hx Hb].
  destruct n as [|n]; simpl.
  - intros [= ->]. by rewrite Ascii.eqb_refl in Hx.
  - by apply IH.
Qed.

Lemma substring_app_l (a s : string) :
  String.substring 0 (String.length a) (a +:+ s) = a.
Proof.
  induction a as [|x a IH]; [by destruct s |].
  rewrite app_cons_s. simpl. by rewrite IH.
Qed.

Lemma back_to_step (buf : string) (dotdot w : nat) :
  w ≠ 0 →
  path.back_to buf dotdot w
  = if (dotdot <? w) && negb (bool_decide (String.get w buf = Some "/"%char))
    then path.back_to buf dotdot (pred w)
    else w.
Proof. by destruct w. Qed.

(** Backing up from the end of [a/b] stops at the slash before [b]. *)
Lemma back_to_elem (a b : string) :
  a ≠ "" → strings.Contains b "/" = false →
  ∀ k, path.back_to (a +:+ "/" +:+ b) 0 (String.length a + k) = String.length a.
Proof.
  intros Ha Hb.
  assert (Hlen : String.length a ≠ 0) by (by rewrite length_zero_s).
  induction k as [|k IH].
  - rewrite back_to_step by lia.
    rewrite get_app_r, (app_cons_s "/" "" b). cbn [String.get].
    rewrite bool_decide_eq_true_2 by done.
    rewrite andb_false_r. lia.
  - rewrite back_to_step by lia.
    rewrite get_app_r, (app_cons_s "/" "" b), app_nil_l_s. cbn [String.get].
    rewrite bool_decide_eq_false_2 by (by apply get_not_slash).
    replace (0 <? String.length a + S k) with true
      by (symmetry; apply Nat.ltb_lt; lia).
    cbn [andb negb]. rewrite Nat.add_succ_r. exact IH.
Qed.

Lemma path_Join_first (e : string) (l : list string) :
  e ≠ "" → path.Join (e :: l) = path.Clean (e +:+ tail_str l).
Proof.
  intros He. unfold path.Join, path.Join_buf. cbn [foldl].
  destruct (foldl _ (0 + String.length e) l =? 0) eqn:Hsize.
  { apply Nat.eqb_eq in Hsize.
    pose proof (size_fold_ge l (0 + String.length e)) as Hge.
    rewrite Hsize in Hge. destruct e; [done | simpl in Hge; lia]. }
  assert (Hstep : (if (0 <? String.length "") || negb (String.eqb e "")
                   then (if 0 <? String.length "" then "" +:+ "/" else "") +:+ e
                   else "") = e) by (by destruct e).
  by rewrite Hstep, Join_buf_from.
Qed.

Lemma Clean_parent (a b : string) (l : list string) :
  path_elem a → path_elem b → Forall path_field l →
  path.Clean (a +:+ tail_str (b :: ".." :: l))
  = a +:+ tail_str (filter (λ e, e ≠ "") l).
Proof.
  intros Ha Hb Hl.
  assert (Hout : path.Clean_loop false false (a +:+ tail_str (b :: ".." :: l)) "" 0
                 = a +:+ tail_str (filter (λ e, e ≠ "") l)).
  { rewrite Clean_loop_elem; [| done | apply at_elem_end_tail_str].
    change (path.with_sep false "") with "". rewrite app_nil_l_s.
    cbn [tail_str foldr]. fold (tail_str l).
    rewrite (app_cons_s "/" ""), app_nil_l_s. cbn [path.Clean_loop].
    change (path.is_slash "/") with true. cbv iota.
    rewrite Clean_loop_elem; [| done | done].
    rewrite with_sep_nonempty by apply Ha.
    rewrite (app_cons_s "/" ""), app_nil_l_s. cbn [path.Clean_loop].
    change (path.is_slash "/") with true. cbv iota.
    change (".." +:+ tail_str l) with (String "." (String "." (tail_str l))).
    cbn [path.Clean_loop].
    change (path.is_slash ".") with false. change (path.is_dot ".") with true.
    cbn [path.at_elem_end andb]. change (path.is_slash ".") with false.
    cbv iota. rewrite at_elem_end_tail_str.
    assert (Hlen : String.length ((a +:+ "/") +:+ b)
                   = S (String.length a + String.length b)).
    { rewrite !length_app_s. simpl. lia. }
    rewrite Hlen. cbn [Nat.ltb Nat.leb Nat.sub]. rewrite Nat.sub_0_r.
    rewrite app_assoc_s, back_to_elem; [| apply Ha | apply Hb].
    rewrite substring_app_l.
    destruct (Clean_loop_fields l Hl) as [Hstart _].
    rewrite <- (app_nil_l_s (tail_str l)).
    rewrite Hstart; [| by left | apply Ha].
    by rewrite filter_cons, decide_False by (by intros ?). }
  destruct Ha as (Hne & Hslash & _).
  destruct a as [|c a]; [done |].
  apply Contains_cons_false in Hslash as [Hc _].
  unfold path.Clean. rewrite app_cons_s. unfold path.is_slash. rewrite Hc.
  rewrite <- app_cons_s, Hout.
  by rewrite app_cons_s.
Qed.

(** X12.  The paths are not checked: an id that is the parent element [..]
    cancels the type.  With an index and a type that are names, the path of
    an index or a delete request is then the index alone, and that of a
    create or an update request is [index/_create] or [index/_update]. *)
Theorem parent_id_cancels_type :
  (∀ r : IndexRequest.t,
     path_elem (IndexRequest.Index r) → path_elem (IndexRequest.Type_ r) →
     IndexRequest.Id r = ".." →
     IndexRequest.Path r = IndexRequest.Index r)
  ∧ (∀ r : CreateRequest.t,
       path_elem (CreateRequest.Index r) → path_elem (CreateRequest.Type_ r) →
       CreateRequest.Id r = ".." →
       CreateRequest.Path r = CreateRequest.Index r +:+ "/_create")
  ∧ (∀ r : UpdateRequest.t,
       path_elem (UpdateRequest.Index r) → path_elem (UpdateRequest.Type_ r) →
       UpdateRequest.Id r = ".." →
       UpdateRequest.Path r = UpdateRequest.Index r +:+ "/_update")
  ∧ (∀ r : DeleteRequest.t,
       path_elem (DeleteRequest.Index r) → path_elem (DeleteRequest.Type_ r) →
       DeleteRequest.Id r = ".." →
       DeleteRequest.Path r = DeleteRequest.Index r).
Proof.
  split; [| split; [| split]]; intros r Hi Ht Hid.
  - unfold IndexRequest.Path. rewrite Hid, path_Join_first by apply Hi.
    rewrite Clean_parent by (done || fields_ok).
    rewrite filter_nil. cbn. by rewrite app_nil_r_s.
  - unfold CreateRequest.Path. rewrite Hid, path_Join_first by apply Hi.
    rewrite Clean_parent by (done || fields_ok).
    rewrite filter_cons, decide_True, filter_nil by done. reflexivity.
  - unfold UpdateRequest.Path. rewrite Hid, path_Join_first by apply Hi.
    rewrite Clean_parent by (done || fields_ok).
    rewrite filter_cons, decide_True, filter_nil by done. reflexivity.
  - unfold DeleteRequest.Path. rewrite Hid, path_Join_first by apply Hi.
    rewrite Clean_parent by (done || fields_ok).
    rewrite filter_nil. cbn. by rewrite app_nil_r_s.
Qed.

Lemma parent_id_cancels_type_witness :
  (path_elem (DeleteRequest.Index fixtures.dotdot_id)
   ∧ path_elem (DeleteRequest.Type_ fixtures.dotdot_id)
   ∧ DeleteRequest.Id fixtures.dotdot_id = "..")
  ∧ DeleteRequest.Path fixtures.dotdot_id = "foo".
Proof.
  assert (Hi : path_elem (DeleteRequest.Index fixtures.dotdot_id)) by (by repeat split).
  assert (Ht : path_elem (DeleteRequest.Type_ fixtures.dotdot_id)) by (by repeat split).
  assert (Hid : DeleteRequest.Id fixtures.dotdot_id = "..") by reflexivity.
  split; [done |].
  exact (proj2 (proj2 (proj2 parent_id_cancels_type)) fixtures.dotdot_id Hi Ht Hid).
Defined.
